(** * TPM character-device driver core (tpm_nopci.c)

    A shallow embedding of the device registry, the transaction engine
    [tpm_transmit], the PCR read helper and the write/read hand-off of
    [drivers/char/tpm/tpm_nopci.c], followed by the properties of the
    driver's specification that hold, or fail, on that code. *)

From Stdlib Require Import ZArith List Lia Bool.
From Stdlib.Strings Require Import Byte.
Import ListNotations.
Local Open Scope Z_scope.

(** ** Machine integers

    C integers are mathematical integers with the wrap-around of their
    width written out.  [wrap_unsigned w] is the value of a [w]-bit
    unsigned object, [wrap_signed w] the two's complement reading of the
    same bits. *)

Definition wrap_unsigned (bits z : Z) : Z := z mod 2 ^ bits.

Definition wrap_signed (bits z : Z) : Z :=
  let u := z mod 2 ^ bits in
  if u <? 2 ^ (bits - 1) then u else u - 2 ^ bits.

Definition to_int : Z -> Z := wrap_signed 32.
Definition to_u32 : Z -> Z := wrap_unsigned 32.
Definition to_u8 : Z -> Z := wrap_unsigned 8.

Definition INT_MAX : Z := 2147483647.

(** [!x] of C. *)
Definition c_lnot (x : Z) : Z := if x =? 0 then 1 else 0.

(** [a << b] on [int]. *)
Definition int_shl (a b : Z) : Z := to_int (Z.shiftl a b).

(** ** Bytes and buffers *)

Definition byte_val (b : byte) : Z := Z.of_N (Byte.to_N b).

Definition byte_of (z : Z) : byte :=
  match Byte.of_N (Z.to_N (z mod 256)) with
  | Some b => b
  | None => x00
  end.

Definition bytes_of (l : list Z) : list byte := map byte_of l.

(** [buf[i]]; a read past the end of the modelled storage yields 0. *)
Definition byte_at (buf : list byte) (i : Z) : Z :=
  byte_val (nth (Z.to_nat i) buf x00).

(** [be32_to_cpu(*((__be32 *) (buf + off)))]. *)
Definition be32_to_cpu_at (buf : list byte) (off : Z) : Z :=
  Z.lor (Z.shiftl (byte_at buf off) 24)
    (Z.lor (Z.shiftl (byte_at buf (off + 1)) 16)
       (Z.lor (Z.shiftl (byte_at buf (off + 2)) 8)
          (byte_at buf (off + 3)))).

(** The four bytes of [cpu_to_be32(x)], most significant first. *)
Definition cpu_to_be32 (x : Z) : list byte :=
  let u := to_u32 x in
  [byte_of (Z.shiftr u 24); byte_of (Z.shiftr u 16);
   byte_of (Z.shiftr u 8); byte_of u].

(** [memcpy(dst + off, src, n)] for [n = length src]: the bytes of [dst]
    from [off] on are replaced, the length of [dst] is kept. *)
Definition memcpy_at (dst : list byte) (off : nat) (src : list byte)
  : list byte :=
  firstn (length dst)
    (firstn off dst ++ src ++ skipn (off + length src) dst).

(** [memset(dst, 0, n)]. *)
Definition memset_zero (dst : list byte) (n : nat) : list byte :=
  memcpy_at dst 0 (repeat x00 (Nat.min n (length dst))).

(** [a[i] = v]; an index outside the array leaves it as it is. *)
Fixpoint array_set (a : list Z) (i : nat) (v : Z) : list Z :=
  match a, i with
  | [], _ => []
  | _ :: t, O => v :: t
  | h :: t, S k => h :: array_set t k v
  end.

(** A pointer is [None] when it is null. *)
Definition non_null {A : Type} (p : option A) : bool :=
  match p with
  | Some _ => true
  | None => false
  end.

(** ** Constants of the driver (the enums at the top of the file) *)

Definition TPM_MINOR : Z := 224.
Definition TPM_BUFSIZE : Z := 2048.
Definition TPM_NUM_DEVICES : Z := 256.
Definition SIZEOF_INT : Z := 4.
Definition TPM_NUM_MASK_ENTRIES : Z := TPM_NUM_DEVICES / (8 * SIZEOF_INT).

Definition TPM_DIGEST_SIZE : Z := 20.
Definition READ_PCR_RESULT_SIZE : Z := 30.

Definition pcrread : list byte :=
  bytes_of [0; 193;          (* TPM_TAG_RQU_COMMAND *)
            0; 0; 0; 14;     (* length *)
            0; 0; 0; 21;     (* TPM_ORD_PcrRead *)
            0; 0; 0; 0].     (* PCR index *)

(** Error numbers of [<asm/errno.h>]. *)
Definition E2BIG : Z := 7.
Definition ENOMEM : Z := 12.
Definition EFAULT : Z := 14.
Definition EBUSY : Z := 16.
Definition ENODEV : Z := 19.
Definition ENOSPC : Z := 28.
Definition ENODATA : Z := 61.
Definition ETIME : Z := 62.
Definition ECANCELED : Z := 125.

(** ** Kernel configuration

    What the driver takes from the kernel it is built for and from its
    own header [tpm_nopci.h]: the width of [long], the tick rate, the
    number of jiffies that pass while [msleep(TPM_TIMEOUT)] sleeps, the
    wildcard chip number and the mask that extracts a chip number from a
    chip id, and the minor number that asks [misc_register] for a dynamic
    one. *)

Class KernelConfig : Type := {
  BITS_PER_LONG : Z;
  HZ : Z;
  msleep_jiffies : Z;
  TPM_ANY_NUM : Z;
  TPM_CHIP_NUM_MASK : Z;
  MISC_DYNAMIC_MINOR : Z
}.

(** The configurations the proofs about time are valid for: a two minute
    deadline fits in a signed [long], and a sleep lasts at least one
    tick and less than half the range of [jiffies]. *)
Class KernelConfigOk (K : KernelConfig) : Prop := {
  long_bits : BITS_PER_LONG = 32 \/ BITS_PER_LONG = 64;
  hz_range : 0 < HZ /\ 2 * 60 * HZ < 2 ^ (BITS_PER_LONG - 1);
  msleep_range : 0 < msleep_jiffies < 2 ^ (BITS_PER_LONG - 1)
}.

(** ** Data model *)

(** The operations of the vendor transport, as the call log records
    them. *)
Inductive vendor_call : Type :=
  | CallSend
  | CallStatus
  | CallCancel
  | CallRecv.

(** How the completion wait of [tpm_transmit] ends. *)
Inductive poll_result : Type :=
  | PollComplete
  | PollCanceled
  | PollTimeout.

Section Model.

Context {HW : Type} {K : KernelConfig}.

(** [struct tpm_vendor_specific]: the transport's operations act on the
    state [HW] of the hardware behind it.  [send] and [recv] are given
    the buffer and a length and return an [int]; [recv] also returns the
    buffer as it leaves it; [status] returns a [u8].  The structure
    belongs to the caller of the registration and the chip only points
    to it.  The driver only reads the operations and the three status
    values, and their owner is taken not to change them while a chip
    points to the structure, so the chip carries them by value.  What
    the driver writes is the embedded [struct miscdevice]: [miscdev] is
    the location of that sub-object, and its [minor] field is kept in
    the store [miscdev_minor] of the driver state under this location,
    so that chips registered with the same structure share it. *)
Record tpm_vendor_specific : Type := {
  miscdev : nat;
  req_complete_mask : Z;
  req_complete_val : Z;
  req_canceled : Z;
  recv : HW -> list byte -> Z -> HW * list byte * Z;
  send : HW -> list byte -> Z -> HW * Z;
  cancel : HW -> HW;
  status : HW -> HW * Z
}.

(** [struct tpm_chip].  [chip_addr] is the address [kmalloc] returned for
    the structure, [vendor] is what [chip->vendor] points to, a semaphore
    is [true] while it is held, [user_read_timer] is the expiry time of
    the timer while it is armed, and [data_buffer] is empty while no
    session buffer is allocated. *)
Record tpm_chip : Type := {
  chip_addr : nat;
  dev : Z;
  dev_num : Z;
  num_opens : Z;
  data_buffer : list byte;
  data_pending : Z;
  data_position : Z;
  user_read_timer : option Z;
  buffer_mutex : bool;
  tpm_mutex : bool;
  vendor : tpm_vendor_specific
}.

(** What lies outside the driver: the tick counter, the hardware, and
    the log of the calls made to the vendor transport, the most recent
    first. *)
Record world : Type := {
  jiffies : Z;
  hw : HW;
  calls : list vendor_call
}.

(** The driver's globals: [dev_mask], [tpm_chip_list] (head first), and
    the driver data [dev_set_drvdata] attached to each device; [next_addr]
    is the next address [kmalloc] hands out.  [miscdev_minor] is the
    memory of the vendor structures as far as the driver has written it:
    the [minor] field of each [miscdev], by location. *)
Record driver : Type := {
  dev_mask : list Z;
  tpm_chip_list : list tpm_chip;
  drvdata : list (Z * nat);
  miscdev_minor : list (nat * Z);
  next_addr : nat
}.

Definition set_num_opens (c : tpm_chip) (v : Z) : tpm_chip :=
  {| chip_addr := chip_addr c; dev := dev c; dev_num := dev_num c;
     num_opens := v; data_buffer := data_buffer c;
     data_pending := data_pending c; data_position := data_position c;
     user_read_timer := user_read_timer c;
     buffer_mutex := buffer_mutex c; tpm_mutex := tpm_mutex c;
     vendor := vendor c |}.

Definition set_data_buffer (c : tpm_chip) (v : list byte) : tpm_chip :=
  {| chip_addr := chip_addr c; dev := dev c; dev_num := dev_num c;
     num_opens := num_opens c; data_buffer := v;
     data_pending := data_pending c; data_position := data_position c;
     user_read_timer := user_read_timer c;
     buffer_mutex := buffer_mutex c; tpm_mutex := tpm_mutex c;
     vendor := vendor c |}.

Definition set_data_pending (c : tpm_chip) (v : Z) : tpm_chip :=
  {| chip_addr := chip_addr c; dev := dev c; dev_num := dev_num c;
     num_opens := num_opens c;
     data_buffer := data_buffer c;
     data_pending := v; data_position := data_position c;
     user_read_timer := user_read_timer c;
     buffer_mutex := buffer_mutex c; tpm_mutex := tpm_mutex c;
     vendor := vendor c |}.

Definition set_data_position (c : tpm_chip) (v : Z) : tpm_chip :=
  {| chip_addr := chip_addr c; dev := dev c; dev_num := dev_num c;
     num_opens := num_opens c;
     data_buffer := data_buffer c;
     data_pending := data_pending c; data_position := v;
     user_read_timer := user_read_timer c;
     buffer_mutex := buffer_mutex c; tpm_mutex := tpm_mutex c;
     vendor := vendor c |}.

Definition set_user_read_timer (c : tpm_chip) (v : option Z) : tpm_chip :=
  {| chip_addr := chip_addr c; dev := dev c; dev_num := dev_num c;
     num_opens := num_opens c;
     data_buffer := data_buffer c;
     data_pending := data_pending c; data_position := data_position c;
     user_read_timer := v;
     buffer_mutex := buffer_mutex c; tpm_mutex := tpm_mutex c;
     vendor := vendor c |}.

Definition set_buffer_mutex (c : tpm_chip) (v : bool) : tpm_chip :=
  {| chip_addr := chip_addr c; dev := dev c; dev_num := dev_num c;
     num_opens := num_opens c;
     data_buffer := data_buffer c;
     data_pending := data_pending c; data_position := data_position c;
     user_read_timer := user_read_timer c;
     buffer_mutex := v; tpm_mutex := tpm_mutex c;
     vendor := vendor c |}.

Definition set_tpm_mutex (c : tpm_chip) (v : bool) : tpm_chip :=
  {| chip_addr := chip_addr c; dev := dev c; dev_num := dev_num c;
     num_opens := num_opens c;
     data_buffer := data_buffer c;
     data_pending := data_pending c; data_position := data_position c;
     user_read_timer := user_read_timer c;
     buffer_mutex := buffer_mutex c; tpm_mutex := v;
     vendor := vendor c |}.

Definition set_jiffies (w : world) (t : Z) : world :=
  {| jiffies := t; hw := hw w; calls := calls w |}.

(** A call of a vendor operation: the hardware moves on and the call is
    logged. *)
Definition vendor_called (w : world) (c : vendor_call) (h : HW) : world :=
  {| jiffies := jiffies w; hw := h; calls := c :: calls w |}.

(** ** Kernel services *)

Definition to_long : Z -> Z := wrap_signed BITS_PER_LONG.
Definition to_ulong : Z -> Z := wrap_unsigned BITS_PER_LONG.

(** [time_before(a, b)], that is [(long)(a) - (long)(b) < 0]. *)
Definition time_before (a b : Z) : bool := to_long (a - b) <? 0.

(** [msleep(TPM_TIMEOUT)]: the tick counter, an [unsigned long], moves
    on.  Time is idealised: a sleep lasts exactly [msleep_jiffies]
    ticks, and the counter moves in no other call of the driver's own
    (a vendor operation takes no time), only between operations
    ([OpElapse]).  What is proved with it about the deadline of
    [tpm_transmit] is the order of the calls and the result, not a
    measure of the time spent. *)
Definition msleep (w : world) : world :=
  set_jiffies w (to_ulong (jiffies w + msleep_jiffies)).

(** [down(&sem)] on a semaphore initialised by [init_MUTEX]: the caller
    takes it when it is free and does not return while it is held. *)
Definition down (held : bool) : option bool :=
  if held then None else Some true.

(** [del_singleshot_timer_sync] and [mod_timer]. *)
Definition del_singleshot_timer_sync (c : tpm_chip) : tpm_chip :=
  set_user_read_timer c None.

Definition mod_timer (c : tpm_chip) (expires : Z) : tpm_chip :=
  set_user_read_timer c (Some expires).


(** ** Response expiry: [user_reader_timeout] *)

Definition user_reader_timeout (chip : tpm_chip) : option tpm_chip :=
  match down (buffer_mutex chip) with
  | None => None
  | Some held =>
    let chip := set_buffer_mutex chip held in
    let chip := set_data_pending chip 0 in
    let chip :=
      set_data_buffer chip
        (memset_zero (data_buffer chip) (Z.to_nat TPM_BUFSIZE)) in
    Some (set_buffer_mutex chip false)
  end.

(** ** Lookup: [tpm_chip_lookup] *)

Definition tpm_chip_lookup (d : driver) (chip_num : Z) : option tpm_chip :=
  find (fun pos => (dev_num pos =? chip_num) || (chip_num =? TPM_ANY_NUM))
    (tpm_chip_list d).

(** ** The transaction engine: [tpm_transmit] *)

(** The [do ... while (time_before(jiffies, stop))] loop.  [fuel] bounds
    the number of iterations the model follows; [None] means the bound
    was too small. *)
Fixpoint poll_loop (fuel : nat) (v : tpm_vendor_specific) (stop : Z)
    (w : world) : option (world * poll_result) :=
  match fuel with
  | O => None
  | S fuel' =>
    let (h, st) := status v (hw w) in
    let w := vendor_called w CallStatus h in
    let st := to_u8 st in
    if Z.land st (req_complete_mask v) =? req_complete_val v then
      Some (w, PollComplete)
    else if st =? req_canceled v then
      Some (w, PollCanceled)
    else
      let w := msleep w in
      if time_before (jiffies w) stop then poll_loop fuel' v stop w
      else Some (w, PollTimeout)
  end.

(** [tpm_transmit(chip, buf, bufsiz)] returns the world, the chip, the
    buffer and [rc]. *)
Definition tpm_transmit (fuel : nat) (w : world) (chip : tpm_chip)
    (buf : list byte) (bufsiz : Z)
  : option (world * tpm_chip * list byte * Z) :=
  let count := be32_to_cpu_at buf 2 in
  if count =? 0 then Some (w, chip, buf, - ENODATA)
  else if bufsiz <? count then Some (w, chip, buf, - E2BIG)
  else
    match down (tpm_mutex chip) with
    | None => None
    | Some held =>
      let chip := set_tpm_mutex chip held in
      let v := vendor chip in
      let (h, rs) := send v (hw w) buf count in
      let w := vendor_called w CallSend h in
      let rc := to_int rs in
      if rc <? 0 then Some (w, set_tpm_mutex chip false, buf, rc)
      else
        let stop := to_ulong (jiffies w + 2 * 60 * HZ) in
        match poll_loop fuel v stop w with
        | None => None
        | Some (w, PollComplete) =>
          let '(h, buf, rr) := recv v (hw w) buf bufsiz in
          let w := vendor_called w CallRecv h in
          let chip := set_data_position chip 0 in
          Some (w, set_tpm_mutex chip false, buf, to_int rr)
        | Some (w, PollCanceled) =>
          Some (w, set_tpm_mutex chip false, buf, - ECANCELED)
        | Some (w, PollTimeout) =>
          let w := vendor_called w CallCancel (cancel v (hw w)) in
          Some (w, set_tpm_mutex chip false, buf, - ETIME)
        end
    end.

(** ** [tpm_pcr_read] *)

(** The chip at its address in [tpm_chip_list] is replaced by its new
    state. *)
Definition store_chip (d : driver) (chip : tpm_chip) : driver :=
  {| dev_mask := dev_mask d;
     tpm_chip_list :=
       map (fun c => if Nat.eqb (chip_addr c) (chip_addr chip)
                     then chip else c) (tpm_chip_list d);
     drvdata := drvdata d;
     miscdev_minor := miscdev_minor d;
     next_addr := next_addr d |}.

(** [res_buf] is [None] for a null pointer; [stack] is what the local
    array [data] holds before it is written. *)
Definition tpm_pcr_read (fuel : nat) (w : world) (d : driver)
    (chip_id pcr_idx : Z) (res_buf : option (list byte))
    (res_buf_size : Z) (stack : list byte)
  : option (world * driver * option (list byte) * Z) :=
  let chip_num := to_int (Z.land chip_id TPM_CHIP_NUM_MASK) in
  if non_null res_buf && (res_buf_size <? TPM_DIGEST_SIZE) then
    Some (w, d, res_buf, - ENOSPC)
  else
    match tpm_chip_lookup d chip_num with
    | None => Some (w, d, res_buf, - ENODEV)
    | Some chip =>
      let data := memcpy_at stack 0 pcrread in
      let index := cpu_to_be32 pcr_idx in
      let data := memcpy_at data 10 index in
      match tpm_transmit fuel w chip data READ_PCR_RESULT_SIZE with
      | None => None
      | Some (w, chip, data, rc) =>
        let rc := to_int rc in
        let rc := if 0 <? rc then to_int (be32_to_cpu_at data 6) else rc in
        let res_buf :=
          match res_buf with
          | Some dst =>
            if rc =? 0 then
              Some (memcpy_at dst 0
                      (firstn (Z.to_nat TPM_DIGEST_SIZE) (skipn 10 data)))
            else res_buf
          | None => None
          end in
        Some (w, store_chip d chip, res_buf, rc)
      end
    end.

(** ** The session file interface *)

(** The part of [tpm_open] that follows the search of [tpm_chip_list]:
    [kbuf] is what [kmalloc(TPM_BUFSIZE)] returns, null or a block with
    whatever bytes it holds. *)
Definition open_session (chip : tpm_chip) (kbuf : option (list byte))
  : tpm_chip * Z :=
  if negb (num_opens chip =? 0) then (chip, - EBUSY)
  else
    let chip := set_num_opens chip (num_opens chip + 1) in
    match kbuf with
    | None =>
      let chip := set_data_buffer chip [] in
      (set_num_opens chip (num_opens chip - 1), - ENOMEM)
    | Some b =>
      let chip := set_data_buffer chip b in
      (set_data_pending chip 0, 0)
    end.

(** [entry->miscdev.minor] for the structure whose [miscdev] is at
    [loc]: [None] while the driver has not written the field, when it
    holds what the structure's owner put there. *)
Definition get_miscdev_minor (d : driver) (loc : nat) : option Z :=
  match find (fun e => Nat.eqb (fst e) loc) (miscdev_minor d) with
  | Some e => Some (snd e)
  | None => None
  end.

(** [entry->miscdev.minor = m]. *)
Definition set_miscdev_minor (d : driver) (loc : nat) (m : Z)
  : list (nat * Z) :=
  (loc, m) :: filter (fun e => negb (Nat.eqb (fst e) loc)) (miscdev_minor d).

(** [pos->vendor->miscdev.minor == minor].  Every chip of the list has
    been through a registration, which wrote the field; for a field
    never written the model has no value and the test is taken to
    fail. *)
Definition minor_is (d : driver) (minor_no : Z) (pos : tpm_chip) : bool :=
  match get_miscdev_minor d (miscdev (vendor pos)) with
  | Some m => m =? minor_no
  | None => false
  end.

(** [tpm_open]: [minor_no] is [iminor(inode)]; the result is the return
    code and [file->private_data]. *)
Definition tpm_open (d : driver) (minor_no : Z) (kbuf : option (list byte))
  : driver * Z * option nat :=
  match find (minor_is d minor_no) (tpm_chip_list d) with
  | None => (d, - ENODEV, None)
  | Some chip =>
    let (chip', rc) := open_session chip kbuf in
    (store_chip d chip', rc,
     if rc =? 0 then Some (chip_addr chip) else None)
  end.

(** [tpm_release], on the chip [file->private_data] points to. *)
Definition tpm_release (chip : tpm_chip) : tpm_chip :=
  let chip := set_num_opens chip (num_opens chip - 1) in
  let chip := del_singleshot_timer_sync chip in
  let chip := set_data_pending chip 0 in
  set_data_buffer chip [].

(** [while (atomic_read(&chip->data_pending) != 0) msleep(TPM_TIMEOUT);]
    Nothing in the writer's own flow of control changes [data_pending]:
    the loop ends at once or waits for a reader or the timer. *)
Fixpoint wait_for_reader (fuel : nat) (w : world) (chip : tpm_chip)
  : option world :=
  if data_pending chip =? 0 then Some w
  else
    match fuel with
    | O => None
    | S fuel' => wait_for_reader fuel' (msleep w) chip
    end.

(** [copy_from_user(to, from, n)] returns the destination as it leaves
    it and the number of bytes it could not copy.  [from] is the memory
    the copy can read at the user's pointer.  When that is shorter than
    [n] the copy faults: what could be read has been copied, and the
    kernel pads it with zero bytes to the [n] bytes asked for.  The
    driver never asks for more than [TPM_BUFSIZE] bytes unless the size
    is negative as an [int]; the model then stops at the end of the
    destination. *)
Definition copy_from_user (to from : list byte) (n : Z)
  : list byte * Z :=
  if n <=? Z.of_nat (length from)
  then (memcpy_at to 0 (firstn (Z.to_nat n) from), 0)
  else (memcpy_at to 0
          (from ++ repeat x00 (Z.to_nat n - length from)),
        n - Z.of_nat (length from)).

(** [tpm_write(file, buf, size, off)]: returns the world, the chip and
    the return value. *)
Definition tpm_write (fuel : nat) (w : world) (chip : tpm_chip)
    (buf : list byte) (size : Z) : option (world * tpm_chip * Z) :=
  let in_size := to_int size in
  match wait_for_reader fuel w chip with
  | None => None
  | Some w =>
    match down (buffer_mutex chip) with
    | None => None
    | Some held =>
      let chip := set_buffer_mutex chip held in
      let in_size :=
        if TPM_BUFSIZE <? in_size then TPM_BUFSIZE else in_size in
      let (b, left) :=
        copy_from_user (data_buffer chip) buf (to_ulong in_size) in
      let chip := set_data_buffer chip b in
      if negb (left =? 0) then Some (w, set_buffer_mutex chip false, - EFAULT)
      else
        match tpm_transmit fuel w chip (data_buffer chip) TPM_BUFSIZE with
        | None => None
        | Some (w, chip, b, rc) =>
          let chip := set_data_buffer chip b in
          let out_size := to_int rc in
          let chip := set_data_pending chip out_size in
          let chip := set_buffer_mutex chip false in
          let chip := mod_timer chip (to_ulong (jiffies w + 60 * HZ)) in
          Some (w, chip, in_size)
        end
    end
  end.

(** [tpm_read(file, buf, size, off)]: [dst_ok] tells whether the user's
    destination can be written; the result is the chip, the return value
    and the bytes copied out. *)
Definition tpm_read (chip : tpm_chip) (size : Z) (dst_ok : bool)
  : option (tpm_chip * Z * list byte) :=
  let chip := del_singleshot_timer_sync chip in
  let ret_size := data_pending chip in
  if 0 <? ret_size then
    let position := data_position chip in
    let ret_size := if size <? ret_size then to_int size else ret_size in
    match down (buffer_mutex chip) with
    | None => None
    | Some held =>
      let chip := set_buffer_mutex chip held in
      if dst_ok then
        let out :=
          firstn (Z.to_nat ret_size)
            (skipn (Z.to_nat position) (data_buffer chip)) in
        let pending := to_int (data_pending chip - ret_size) in
        let chip := set_data_pending chip pending in
        let chip := set_data_position chip (to_int (position + ret_size)) in
        Some (set_buffer_mutex chip false, ret_size, out)
      else
        Some (set_buffer_mutex chip false, - EFAULT, [])
    end
  else Some (chip, ret_size, []).

(** ** The device registry *)

(** [dev_get_drvdata] and [dev_set_drvdata] ([None] stores null). *)
Definition dev_get_drvdata (d : driver) (dv : Z) : option nat :=
  match find (fun e => fst e =? dv) (drvdata d) with
  | Some e => Some (snd e)
  | None => None
  end.

Definition dev_set_drvdata (d : driver) (dv : Z) (p : option nat)
  : list (Z * nat) :=
  let others := filter (fun e => negb (fst e =? dv)) (drvdata d) in
  match p with
  | Some a => (dv, a) :: others
  | None => others
  end.

(** [tpm_remove_hardware(dev)]. *)
Definition tpm_remove_hardware (d : driver) (dv : Z) : driver :=
  match dev_get_drvdata d dv with
  | None => d
  | Some a =>
    match find (fun c => Nat.eqb (chip_addr c) a) (tpm_chip_list d) with
    | None => d
    | Some chip =>
      let lst :=
        filter (fun c => negb (Nat.eqb (chip_addr c) a)) (tpm_chip_list d) in
      let k := Z.to_nat (Z.quot (dev_num chip) TPM_NUM_MASK_ENTRIES) in
      let bit := int_shl 1 (Z.rem (dev_num chip) TPM_NUM_MASK_ENTRIES) in
      let word := Z.land (nth k (dev_mask d) 0) (c_lnot bit) in
      {| dev_mask := array_set (dev_mask d) k word;
         tpm_chip_list := lst;
         drvdata := dev_set_drvdata d dv None;
         miscdev_minor := miscdev_minor d;
         next_addr := next_addr d |}
    end
  end.

(** The inner loop of the search for a device number:
    [for (j = 0; j < 8 * sizeof(int); j++)], entered at [j] with [n]
    iterations left. *)
Fixpoint scan_bits (word : Z) (n : nat) (j : Z) : option Z :=
  match n with
  | O => None
  | S n' =>
    if Z.land word (int_shl 1 j) =? 0 then Some j
    else scan_bits word n' (j + 1)
  end.

(** The outer loop: [for (i = 0; i < TPM_NUM_MASK_ENTRIES; i++)]. *)
Fixpoint scan_words (mask : list Z) (n : nat) (i : Z) : option (Z * Z) :=
  match n with
  | O => None
  | S n' =>
    match scan_bits (nth (Z.to_nat i) mask 0)
            (Z.to_nat (8 * SIZEOF_INT)) 0 with
    | Some j => Some (i, j)
    | None => scan_words mask n' (i + 1)
    end
  end.

(** The chip as [kmalloc] and [memset] leave it, with its vendor entry
    and, for now, device number -1. *)
Definition new_chip (addr : nat) (entry : tpm_vendor_specific) : tpm_chip :=
  {| chip_addr := addr; dev := 0; dev_num := -1;
     num_opens := 0; data_buffer := []; data_pending := 0;
     data_position := 0; user_read_timer := None;
     buffer_mutex := false; tpm_mutex := false; vendor := entry |}.

Definition set_registration (c : tpm_chip) (dv num : Z) : tpm_chip :=
  {| chip_addr := chip_addr c; dev := dv; dev_num := num;
     num_opens := num_opens c; data_buffer := data_buffer c;
     data_pending := data_pending c; data_position := data_position c;
     user_read_timer := user_read_timer c;
     buffer_mutex := buffer_mutex c; tpm_mutex := tpm_mutex c;
     vendor := vendor c |}.

(** [tpm_register_hardware_nopci(dev, entry)].  [kmalloc_ok] tells
    whether the allocation of the chip succeeds; [misc] is what
    [misc_register] does: [None] when it fails, [Some m] when it succeeds,
    [m] being the minor it picks, and writes to the [miscdev], when a
    dynamic one is asked for.  The minor is written to the caller's
    structure before [misc_register] is called, and stays there when
    that fails. *)
Definition tpm_register_hardware_nopci (d : driver) (dv : Z)
    (entry : tpm_vendor_specific) (kmalloc_ok : bool) (misc : option Z)
  : driver * Z :=
  if negb kmalloc_ok then (d, - ENOMEM)
  else
    let chip := new_chip (next_addr d) entry in
    match scan_words (dev_mask d) (Z.to_nat TPM_NUM_MASK_ENTRIES) 0 with
    | None => (d, - ENODEV)
    | Some (i, j) =>
      let num := i * TPM_NUM_MASK_ENTRIES + j in
      let word := Z.lor (nth (Z.to_nat i) (dev_mask d) 0) (int_shl 1 j) in
      let mask := array_set (dev_mask d) (Z.to_nat i) word in
      let mnr := if num =? 0 then TPM_MINOR else MISC_DYNAMIC_MINOR in
      let chip := set_registration chip dv num in
      match misc with
      | None =>
        let word := Z.land (nth (Z.to_nat i) mask 0) (c_lnot (int_shl 1 j)) in
        ({| dev_mask := array_set mask (Z.to_nat i) word;
            tpm_chip_list := tpm_chip_list d;
            drvdata := drvdata d;
            miscdev_minor := set_miscdev_minor d (miscdev entry) mnr;
            next_addr := next_addr d |}, - ENODEV)
      | Some m =>
        let mnr := if mnr =? MISC_DYNAMIC_MINOR then m else mnr in
        ({| dev_mask := mask;
            tpm_chip_list := chip :: tpm_chip_list d;
            drvdata := dev_set_drvdata d dv (Some (chip_addr chip));
            miscdev_minor := set_miscdev_minor d (miscdev entry) mnr;
            next_addr := S (next_addr d) |}, 0)
      end
    end.

(** The driver as it is loaded: [dev_mask] has 32 words, all zero, and
    the chip list is empty. *)
Definition driver_init : driver :=
  {| dev_mask := repeat 0 32; tpm_chip_list := [];
     drvdata := []; miscdev_minor := []; next_addr := 1%nat |}.

End Model.

(** ** A configuration and a transport for the worked examples *)

(** A 32-bit kernel at 100 ticks per second, where [msleep(5)] sleeps two
    ticks; the header's chip-number constants. *)
Definition i386_config : KernelConfig :=
  {| BITS_PER_LONG := 32; HZ := 100; msleep_jiffies := 2;
     TPM_ANY_NUM := 65535; TPM_CHIP_NUM_MASK := 65535;
     MISC_DYNAMIC_MINOR := 255 |}.

(** A 64-bit kernel at 1000 ticks per second. *)
Definition amd64_config : KernelConfig :=
  {| BITS_PER_LONG := 64; HZ := 1000; msleep_jiffies := 6;
     TPM_ANY_NUM := 65535; TPM_CHIP_NUM_MASK := 65535;
     MISC_DYNAMIC_MINOR := 255 |}.

(** A simulated transport without state of its own: [send] returns
    [send_rc], [status] always reads [st], [recv] writes [resp] over the
    start of the buffer and returns its length, or returns [-EIO] when
    the buffer is too small for it.  The status is complete when it is 1
    and canceled when it is 2. *)
Definition sim_vendor (send_rc st : Z) (resp : list byte)
  : @tpm_vendor_specific unit :=
  {| miscdev := 0;
     req_complete_mask := 255;
     req_complete_val := 1;
     req_canceled := 2;
     recv := fun h buf n =>
               if n <? Z.of_nat (length resp) then (h, buf, -5)
               else (h, memcpy_at buf 0 resp, Z.of_nat (length resp));
     send := fun h _ _ => (h, send_rc);
     cancel := fun h => h;
     status := fun h => (h, st) |}.

Definition sim_world : @world unit :=
  {| jiffies := 0; hw := tt; calls := [] |}.

(** A chip on the simulated transport with a session open on a zeroed
    buffer. *)
Definition sim_chip (v : @tpm_vendor_specific unit) : @tpm_chip unit :=
  fst (open_session (new_chip 1 v)
         (Some (repeat x00 (Z.to_nat TPM_BUFSIZE)))).

(** [n] registrations in a row, each with a device of its own and a
    [misc_register] that succeeds; the return codes are collected, the
    first registration first. *)
Fixpoint register_many {HW : Type} {K : KernelConfig}
    (entry : @tpm_vendor_specific HW) (n : nat) (d : driver)
  : driver * list Z :=
  match n with
  | O => (d, [])
  | S n' =>
    let (d1, rcs) := register_many entry n' d in
    let (d2, rc) :=
      tpm_register_hardware_nopci d1 (Z.of_nat n') entry true
        (Some (Z.of_nat n')) in
    (d2, rcs ++ [rc])
  end.

(** The device numbers of the registered chips, the latest registration
    first. *)
Definition live_dev_nums {HW : Type} (d : @driver HW) : list Z :=
  map dev_num (tpm_chip_list d).

(** ** Vocabulary of the properties *)

Section Vocabulary.

Context {HW : Type} {K : KernelConfig}.

(** The hardware after [n] reads of the status register. *)
Fixpoint status_hw (v : @tpm_vendor_specific HW) (n : nat) (h : HW) : HW :=
  match n with
  | O => h
  | S n' => status_hw v n' (fst (status v h))
  end.

(** The vendor's status never reports completion or cancellation. *)
Definition never_completes (v : @tpm_vendor_specific HW) : Prop :=
  forall h : HW,
    Z.land (to_u8 (snd (status v h))) (req_complete_mask v)
      <> req_complete_val v /\
    to_u8 (snd (status v h)) <> req_canceled v.

(** The contract of the vendor's [recv]: what it returns for a buffer
    of [n] bytes is an error or a length of at most [n]. *)
Definition recv_bounded (v : @tpm_vendor_specific HW) : Prop :=
  forall (h : HW) (buf : list byte) (n : Z),
    0 <= n -> to_int (snd (recv v h buf n)) <= n.

(** The invariant of the hand-off state: the read cursor is not
    negative, and cursor plus pending size stay within the buffer. *)
Definition handoff_invariant (chip : @tpm_chip HW) : Prop :=
  0 <= data_position chip /\
  data_position chip + data_pending chip <= TPM_BUFSIZE.

(** The invariant in the form that every operation preserves: the cursor
    itself stays within the buffer, also while a negative error code
    stands in the pending size. *)
Definition cursor_in_buffer (chip : @tpm_chip HW) : Prop :=
  0 <= data_position chip <= TPM_BUFSIZE /\
  data_position chip + data_pending chip <= TPM_BUFSIZE.

(** What can happen to a chip's session: the file operations, the
    timer going off while it is armed, a transaction another part of the
    kernel runs on the chip with a buffer of its own (as [tpm_pcr_read]
    does), and time passing between them. *)
Inductive session_op : Type :=
  | OpOpen (kbuf : option (list byte))
  | OpWrite (ubuf : list byte) (size : Z)
  | OpRead (size : Z) (dst_ok : bool)
  | OpTimerFires
  | OpRelease
  | OpTransmit (buf : list byte) (bufsiz : Z)
  | OpElapse (ticks : Z).

(** The sizes of a read and of a write are [size_t] values. *)
Definition op_ok (op : session_op) : Prop :=
  match op with
  | OpWrite _ size => 0 <= size
  | OpRead size _ => 0 <= size
  | _ => True
  end.

(** One operation on a chip; [None] when the operation cannot take place
    (a read, write or release without an open session, a timer that is
    not armed) or does not return. *)
Definition session_step (fuel : nat) (s : @world HW * @tpm_chip HW)
    (op : session_op) : option (@world HW * @tpm_chip HW) :=
  let (w, chip) := s in
  match op with
  | OpOpen kbuf => Some (w, fst (open_session chip kbuf))
  | OpWrite ubuf size =>
    if 0 <? num_opens chip then
      match tpm_write fuel w chip ubuf size with
      | Some (w', chip', _) => Some (w', chip')
      | None => None
      end
    else None
  | OpRead size dst_ok =>
    if 0 <? num_opens chip then
      match tpm_read chip size dst_ok with
      | Some (chip', _, _) => Some (w, chip')
      | None => None
      end
    else None
  | OpTimerFires =>
    match user_read_timer chip with
    | Some _ =>
      match user_reader_timeout (set_user_read_timer chip None) with
      | Some chip' => Some (w, chip')
      | None => None
      end
    | None => None
    end
  | OpRelease =>
    if 0 <? num_opens chip then Some (w, tpm_release chip) else None
  | OpTransmit buf bufsiz =>
    match tpm_transmit fuel w chip buf bufsiz with
    | Some (w', chip', _, _) => Some (w', chip')
    | None => None
    end
  | OpElapse ticks => Some (set_jiffies w (to_ulong (jiffies w + ticks)), chip)
  end.

Fixpoint session_run (fuel : nat) (s : @world HW * @tpm_chip HW)
    (ops : list session_op) : option (@world HW * @tpm_chip HW) :=
  match ops with
  | [] => Some s
  | op :: rest =>
    match session_step fuel s op with
    | Some s' => session_run fuel s' rest
    | None => None
    end
  end.

End Vocabulary.

(** A ten-byte response with result code 0, a transport that answers
    every command with it at once, and the chip after the PCR-read
    template has been written to it. *)
Definition sim_response : list byte :=
  bytes_of [0; 196; 0; 0; 0; 10; 0; 0; 0; 0].

Definition sim_ready : @tpm_vendor_specific unit :=
  sim_vendor 0 1 sim_response.

Definition sim_pending_chip : @tpm_chip unit :=
  match tpm_write (K := i386_config) 1 sim_world (sim_chip sim_ready)
          pcrread 14 with
  | Some (_, chip, _) => chip
  | None => sim_chip sim_ready
  end.

(** A driver with one chip whose transport fails every send with
    [-ENOSPC]. *)
Definition sim_driver_send_fails : @driver unit :=
  fst (tpm_register_hardware_nopci (K := i386_config) driver_init 0
         (sim_vendor (- ENOSPC) 1 []) true (Some 0)).

(** A session: open, a write that nobody reads until the timer goes off,
    a second write, and two reads with a transaction of the kernel's own
    between them. *)
Definition sim_session : list session_op :=
  [OpOpen (Some (repeat x00 (Z.to_nat TPM_BUFSIZE)));
   OpWrite pcrread 14; OpElapse 6000; OpTimerFires;
   OpWrite pcrread 14; OpRead 4 true; OpTransmit pcrread 30;
   OpRead 100 true; OpRelease].


(** ** Histories of the registry *)

Section RegistryVocabulary.

Context {HW : Type} {K : KernelConfig}.

(** What a vendor transport does to the registry: it registers a device
    (with what [kmalloc] and [misc_register] answer) or removes one. *)
Inductive registry_op : Type :=
  | RegRegister (dv : Z) (entry : @tpm_vendor_specific HW)
      (kmalloc_ok : bool) (misc : option Z)
  | RegRemove (dv : Z).

Definition registry_step (d : @driver HW) (op : registry_op) : @driver HW :=
  match op with
  | RegRegister dv entry kmalloc_ok misc =>
    fst (tpm_register_hardware_nopci d dv entry kmalloc_ok misc)
  | RegRemove dv => tpm_remove_hardware d dv
  end.

Definition registry_run (ops : list registry_op) (d : @driver HW)
  : @driver HW :=
  fold_left registry_step ops d.

(** What every history keeps: [dev_mask] has its 32 words; the chips of
    the list are distinct structures allocated before [next_addr], each
    with a device number between 0 and 87; and the driver data of a
    device points to a chip of the list that was registered for it. *)
Definition registry_ok (d : @driver HW) : Prop :=
  length (dev_mask d) = 32%nat /\
  NoDup (map chip_addr (tpm_chip_list d)) /\
  (forall c, In c (tpm_chip_list d) ->
     (chip_addr c < next_addr d)%nat /\ 0 <= dev_num c <= 87) /\
  (forall dv a, In (dv, a) (drvdata d) ->
     exists c, In c (tpm_chip_list d) /\ chip_addr c = a /\ dev c = dv).

End RegistryVocabulary.

(** ** Vocabulary of the completion wait *)

Section PollVocabulary.

Context {HW : Type}.

(** The status byte [tpm_transmit] reads from hardware state [h]. *)
Definition status_at (v : @tpm_vendor_specific HW) (h : HW) : Z :=
  to_u8 (snd (status v h)).

(** The first [m] polls, starting from hardware state [h0], show neither
    completion nor cancellation. *)
Definition polls_pending (v : @tpm_vendor_specific HW) (m : nat) (h0 : HW)
  : Prop :=
  forall k : nat, (k < m)%nat ->
    Z.land (status_at v (status_hw v k h0)) (req_complete_mask v)
      <> req_complete_val v /\
    status_at v (status_hw v k h0) <> req_canceled v.

End PollVocabulary.

(** A simulated transport whose hardware state counts the polls left
    until the status turns from 0 to [final], 1 for a response that is
    ready and 2 for a cancelled operation; [send] starts the count at
    [delay]. *)
Definition sim_countdown (delay : nat) (final : Z) (resp : list byte)
  : @tpm_vendor_specific nat :=
  {| miscdev := 0;
     req_complete_mask := 255;
     req_complete_val := 1;
     req_canceled := 2;
     recv := fun h buf n =>
               if n <? Z.of_nat (length resp) then (h, buf, -5)
               else (h, memcpy_at buf 0 resp, Z.of_nat (length resp));
     send := fun _ _ _ => (delay, 0);
     cancel := fun h => h;
     status := fun h => (Nat.pred h, if Nat.eqb h 0 then final else 0) |}.

Definition sim_countdown_world : @world nat :=
  {| jiffies := 0; hw := 0%nat; calls := [] |}.

Definition sim_countdown_chip (delay : nat) (final : Z) : @tpm_chip nat :=
  fst (open_session (new_chip 1 (sim_countdown delay final sim_response))
         (Some (repeat x00 (Z.to_nat TPM_BUFSIZE)))).

(** ** Vocabulary of the session's life *)

Section SessionVocabulary.

Context {HW : Type}.

(** A chip is open at most once; while it is not open, no result is
    pending and the timer is not armed. *)
Definition session_tidy (chip : @tpm_chip HW) : Prop :=
  (num_opens chip = 0 \/ num_opens chip = 1) /\
  (num_opens chip = 0 ->
     data_pending chip = 0 /\ user_read_timer chip = None).

End SessionVocabulary.

(** ** [tpm_pcr_extend] *)

Definition EXTEND_PCR_SIZE : Z := 34.

Definition pcrextend : list byte :=
  bytes_of [0; 193;          (* TPM_TAG_RQU_COMMAND *)
            0; 0; 0; 34;     (* length *)
            0; 0; 0; 20;     (* TPM_ORD_Extend *)
            0; 0; 0; 0].     (* PCR index *)

Section PcrExtend.

Context {HW : Type} {K : KernelConfig}.

(** The request [tpm_pcr_read] builds in its local array: the template,
    then the index at offset 10; [stack] is what the array held. *)
Definition pcr_read_command (stack : list byte) (pcr_idx : Z) : list byte :=
  memcpy_at (memcpy_at stack 0 pcrread) 10 (cpu_to_be32 pcr_idx).

(** The request [tpm_pcr_extend] builds: the template, the index at
    offset 10 and the 20 bytes at [hash] at offset 14. *)
Definition pcr_extend_command (stack : list byte) (pcr_idx : Z)
    (hash : list byte) : list byte :=
  let data := memcpy_at stack 0 pcrextend in
  let data := memcpy_at data 10 (cpu_to_be32 pcr_idx) in
  memcpy_at data 14 (firstn (Z.to_nat TPM_DIGEST_SIZE) hash).

(** [tpm_pcr_extend(chip_id, pcr_idx, hash)]; [stack] is what the local
    array [data] holds before it is written. *)
Definition tpm_pcr_extend (fuel : nat) (w : @world HW) (d : @driver HW)
    (chip_id pcr_idx : Z) (hash : list byte) (stack : list byte)
  : option (@world HW * @driver HW * Z) :=
  let chip_num := to_int (Z.land chip_id TPM_CHIP_NUM_MASK) in
  match tpm_chip_lookup d chip_num with
  | None => Some (w, d, - ENODEV)
  | Some chip =>
    let data := pcr_extend_command stack pcr_idx hash in
    match tpm_transmit fuel w chip data EXTEND_PCR_SIZE with
    | None => None
    | Some (w, chip, data, rc) =>
      let rc := to_int rc in
      let rc := if 0 <? rc then to_int (be32_to_cpu_at data 6) else rc in
      Some (w, store_chip d chip, rc)
    end
  end.

End PcrExtend.

(** ** Vocabulary of what a transaction leaves alone *)

Section FrameVocabulary.

Context {HW : Type}.

(** Two states of a chip that differ at most in the transaction
    semaphore and the read cursor. *)
Definition same_but_cursor (c c' : @tpm_chip HW) : Prop :=
  chip_addr c' = chip_addr c /\ dev c' = dev c /\
  dev_num c' = dev_num c /\
  num_opens c' = num_opens c /\ data_buffer c' = data_buffer c /\
  data_pending c' = data_pending c /\
  user_read_timer c' = user_read_timer c /\
  buffer_mutex c' = buffer_mutex c /\ vendor c' = vendor c.

End FrameVocabulary.

(** ** More worked inputs *)

(** A registry with one chip on the transport that answers at once. *)
Definition sim_driver_one : @driver unit :=
  fst (tpm_register_hardware_nopci (K := i386_config) driver_init 0
         sim_ready true (Some 0)).

(** A registry with one chip whose transport completes every command
    with a response of no bytes. *)
Definition sim_driver_silent : @driver unit :=
  fst (tpm_register_hardware_nopci (K := i386_config) driver_init 0
         (sim_vendor 0 1 []) true (Some 0)).

(** A history of the registry: two devices come, the first goes, a
    third fails at [misc_register], a fourth comes. *)
Definition sim_history : list (@registry_op unit) :=
  [RegRegister 0 sim_ready true (Some 0);
   RegRegister 1 sim_ready true (Some 60);
   RegRemove 0;
   RegRegister 2 sim_ready true None;
   RegRegister 3 sim_ready true (Some 61)].

(** The chip after a write whose transaction was turned away: the error
    code stands in the pending size. *)
Definition sim_error_chip : @tpm_chip unit :=
  match tpm_write (K := i386_config) 0 sim_world (sim_chip sim_ready)
          (repeat x00 10) 10 with
  | Some (_, chip, _) => chip
  | None => sim_chip sim_ready
  end.


(** A 20-byte hash and the 20-byte result buffer of a caller. *)
Definition sim_hash : list byte := repeat xff 20.
Definition sim_result_buffer : list byte := repeat xaa 20.

(** ** [tpm_pm_suspend] *)


Section Suspend.

Context {HW : Type} {K : KernelConfig}.


End Suspend.

(** A transport whose [recv] reports more bytes than the buffer it was
    given can hold. *)
Definition sim_overlong : @tpm_vendor_specific unit :=
  {| miscdev := 0;
     req_complete_mask := 255;
     req_complete_val := 1;
     req_canceled := 2;
     recv := fun h buf _ => (h, buf, 5000);
     send := fun h _ _ => (h, 0);
     cancel := fun h => h;
     status := fun h => (h, 1) |}.

(** A session that is closed after four of ten bytes have been read,
    and opened again. *)
Definition sim_reopened : list session_op :=
  [OpOpen (Some (repeat x00 (Z.to_nat TPM_BUFSIZE)));
   OpWrite pcrread 14; OpRead 4 true; OpRelease;
   OpOpen (Some (repeat x00 (Z.to_nat TPM_BUFSIZE)))].

(** The registry after a second device has been registered with the
    vendor structure of the first. *)
Definition sim_driver_two : @driver unit :=
  fst (tpm_register_hardware_nopci (K := i386_config) sim_driver_one 1
         sim_ready true (Some 60)).


(** * Properties *)

(** ** Machine integers *)

Lemma wrap_signed_range (bits z : Z) :
  0 < bits ->
  - 2 ^ (bits - 1) <= wrap_signed bits z < 2 ^ (bits - 1).
Proof.
  intros Hb. unfold wrap_signed.
  assert (Hp : 2 ^ bits = 2 * 2 ^ (bits - 1)).
  { replace bits with (1 + (bits - 1)) at 1 by lia.
    rewrite Z.pow_add_r by lia. reflexivity. }
  assert (0 < 2 ^ (bits - 1)) by (apply Z.pow_pos_nonneg; lia).
  pose proof (Z.mod_pos_bound z (2 ^ bits) ltac:(lia)) as Hm.
  cbv zeta. destruct (Z.ltb_spec (z mod 2 ^ bits) (2 ^ (bits - 1))); lia.
Qed.

Lemma wrap_signed_small (bits z : Z) :
  0 < bits ->
  - 2 ^ (bits - 1) <= z < 2 ^ (bits - 1) ->
  wrap_signed bits z = z.
Proof.
  intros Hb Hz. unfold wrap_signed.
  assert (Hp : 2 ^ bits = 2 * 2 ^ (bits - 1)).
  { replace bits with (1 + (bits - 1)) at 1 by lia.
    rewrite Z.pow_add_r by lia. reflexivity. }
  cbv zeta. destruct (Z_lt_le_dec z 0) as [Hneg | Hpos].
  - replace (z mod 2 ^ bits) with (z + 2 ^ bits).
    + destruct (Z.ltb_spec (z + 2 ^ bits) (2 ^ (bits - 1))); lia.
    + apply Z.mod_unique with (q := -1); lia.
  - rewrite Z.mod_small by lia.
    destruct (Z.ltb_spec z (2 ^ (bits - 1))); lia.
Qed.

Lemma wrap_signed_congr (bits x y : Z) :
  x mod 2 ^ bits = y mod 2 ^ bits ->
  wrap_signed bits x = wrap_signed bits y.
Proof. intros E. unfold wrap_signed. rewrite E. reflexivity. Qed.

Lemma wrap_signed_mod (bits z : Z) :
  0 < bits ->
  (wrap_signed bits z) mod 2 ^ bits = z mod 2 ^ bits.
Proof.
  intros Hb. unfold wrap_signed. cbv zeta.
  assert (0 < 2 ^ bits) by (apply Z.pow_pos_nonneg; lia).
  destruct (Z.ltb_spec (z mod 2 ^ bits) (2 ^ (bits - 1))).
  - apply Z.mod_mod. lia.
  - rewrite Zminus_mod, Z.mod_same, Z.sub_0_r, Z.mod_mod, Z.mod_mod by lia.
    reflexivity.
Qed.

Lemma to_int_range (z : Z) : - 2147483648 <= to_int z <= 2147483647.
Proof.
  pose proof (wrap_signed_range 32 z ltac:(lia)) as H.
  unfold to_int. change (2 ^ (32 - 1)) with 2147483648 in H. lia.
Qed.

Lemma to_int_small (z : Z) :
  - 2147483648 <= z <= 2147483647 -> to_int z = z.
Proof.
  intros H. apply wrap_signed_small; [lia|].
  change (2 ^ (32 - 1)) with 2147483648. lia.
Qed.

Lemma to_int_idem (z : Z) : to_int (to_int z) = to_int z.
Proof. apply to_int_small, to_int_range. Qed.

(** ** The device registry *)

(** The search is first-fit in the order of the scan: the bit it finds
    is clear, and every bit scanned before it is set. *)
Lemma scan_bits_first (word : Z) (n : nat) (j0 j : Z) :
  scan_bits word n j0 = Some j ->
  j0 <= j < j0 + Z.of_nat n /\
  Z.land word (int_shl 1 j) = 0 /\
  forall k, j0 <= k < j -> Z.land word (int_shl 1 k) <> 0.
Proof.
  revert j0. induction n as [|n IH]; intros j0; cbn [scan_bits];
    [discriminate|].
  destruct (Z.eqb_spec (Z.land word (int_shl 1 j0)) 0) as [E | N].
  - intros [= <-]. split; [lia|]. split; [exact E|]. intros k Hk. lia.
  - intros Hrec. destruct (IH _ Hrec) as (Hj & Hclear & Hset).
    split; [lia|]. split; [exact Hclear|].
    intros k Hk. destruct (Z.eq_dec k j0) as [-> | Hne]; [exact N|].
    apply Hset. lia.
Qed.

Lemma scan_bits_none (word : Z) (n : nat) (j0 : Z) :
  scan_bits word n j0 = None ->
  forall k, j0 <= k < j0 + Z.of_nat n -> Z.land word (int_shl 1 k) <> 0.
Proof.
  revert j0. induction n as [|n IH]; intros j0; cbn [scan_bits].
  - intros _ k Hk. lia.
  - destruct (Z.eqb_spec (Z.land word (int_shl 1 j0)) 0) as [E | N];
      [discriminate|].
    intros Hrec k Hk. destruct (Z.eq_dec k j0) as [-> | Hne]; [exact N|].
    apply (IH _ Hrec). lia.
Qed.

Lemma scan_words_first (mask : list Z) (n : nat) (i0 i j : Z) :
  scan_words mask n i0 = Some (i, j) ->
  i0 <= i < i0 + Z.of_nat n /\ 0 <= j < 32 /\
  Z.land (nth (Z.to_nat i) mask 0) (int_shl 1 j) = 0 /\
  (forall k, 0 <= k < j ->
     Z.land (nth (Z.to_nat i) mask 0) (int_shl 1 k) <> 0) /\
  (forall i' k, i0 <= i' < i -> 0 <= k < 32 ->
     Z.land (nth (Z.to_nat i') mask 0) (int_shl 1 k) <> 0).
Proof.
  revert i0. induction n as [|n IH]; intros i0; cbn [scan_words];
    [discriminate|].
  destruct (scan_bits (nth (Z.to_nat i0) mask 0) _ 0) as [j'|] eqn:Eb.
  - intros [= <- <-]. apply scan_bits_first in Eb.
    destruct Eb as (Hj & Hclear & Hset).
    change (Z.of_nat (Z.to_nat (8 * SIZEOF_INT))) with 32 in Hj.
    split; [lia|]. split; [lia|]. split; [exact Hclear|].
    split; [intros k Hk; apply Hset; lia|]. intros i' k Hi'. lia.
  - intros Hrec. destruct (IH _ Hrec) as (Hi & Hj & Hclear & Hset & Hbefore).
    split; [lia|]. split; [lia|]. split; [exact Hclear|].
    split; [exact Hset|].
    intros i' k Hi' Hk. destruct (Z.eq_dec i' i0) as [-> | Hne].
    + apply (scan_bits_none _ _ _ Eb).
      change (Z.of_nat (Z.to_nat (8 * SIZEOF_INT))) with 32. lia.
    + apply Hbefore; lia.
Qed.

(** A registration that succeeds takes the first clear bit in the order
    of the scan, bit [j] of word [i], sets it, and numbers the chip
    [i * TPM_NUM_MASK_ENTRIES + j]. *)
Lemma register_takes_first_clear_bit {HW : Type} {K : KernelConfig}
    (d d' : @driver HW) (dv : Z) (entry : tpm_vendor_specific)
    (misc : option Z) :
  tpm_register_hardware_nopci d dv entry true misc = (d', 0) ->
  exists i j chip,
    scan_words (dev_mask d) (Z.to_nat TPM_NUM_MASK_ENTRIES) 0 = Some (i, j) /\
    0 <= i < 8 /\ 0 <= j < 32 /\
    tpm_chip_list d' = chip :: tpm_chip_list d /\
    dev_num chip = i * 8 + j /\
    dev_mask d' =
      array_set (dev_mask d) (Z.to_nat i)
        (Z.lor (nth (Z.to_nat i) (dev_mask d) 0) (int_shl 1 j)).
Proof.
  unfold tpm_register_hardware_nopci. cbn [negb].
  destruct (scan_words _ _ 0) as [[i j]|] eqn:Es; [|discriminate].
  destruct misc as [m|]; [|discriminate].
  intros [= <-]. apply scan_words_first in Es.
  destruct Es as (Hi & Hj & _).
  change (Z.of_nat (Z.to_nat TPM_NUM_MASK_ENTRIES)) with 8 in Hi.
  exists i, j. eexists.
  split; [reflexivity|]. split; [lia|]. split; [lia|].
  split; [reflexivity|]. split; reflexivity.
Qed.

(** When every bit of the eight words the search looks at is set, the
    registration fails and leaves the driver as it is. *)
Lemma register_without_free_bit {HW : Type} {K : KernelConfig}
    (d : @driver HW) (dv : Z) (entry : tpm_vendor_specific)
    (misc : option Z) :
  scan_words (dev_mask d) (Z.to_nat TPM_NUM_MASK_ENTRIES) 0 = None ->
  tpm_register_hardware_nopci d dv entry true misc = (d, - ENODEV).
Proof.
  intros Hscan. unfold tpm_register_hardware_nopci.
  cbn [negb]. rewrite Hscan. reflexivity.
Qed.

(** From the freshly loaded driver 256 registrations in a row succeed and
    fill the eight words of [dev_mask] the search looks at. *)
Lemma register_256_succeed :
  let (d, rcs) :=
    register_many (K := i386_config) (sim_vendor 0 1 []) 256 driver_init in
  rcs = repeat 0 256 /\
  length (tpm_chip_list d) = 256%nat /\
  dev_mask d = repeat (-1) 8 ++ repeat 0 24.
Proof. vm_compute. repeat split. Qed.

(** The 257th registration fails with [-ENODEV] and changes nothing. *)
Lemma register_257th_fails :
  let d :=
    fst (register_many (K := i386_config) (sim_vendor 0 1 []) 256
           driver_init) in
  tpm_register_hardware_nopci (K := i386_config) d 256 (sim_vendor 0 1 [])
    true (Some 256) = (d, - ENODEV).
Proof.
  cbv zeta. apply register_without_free_bit. vm_compute. reflexivity.
Qed.

(** C1 (device numbers of live chips are pairwise distinct, lowest free
    number first): evaluated on the code, the claim fails.  After 33
    registrations in a row, all of which succeed, the ninth chip and the
    thirty-third chip both hold device number 8: the search takes bit 0
    of word 1 and numbers it [1 * TPM_NUM_MASK_ENTRIES + 0], and
    [TPM_NUM_MASK_ENTRIES] is 8, not the 32 bits of a word. *)
Theorem register_33rd_reuses_live_number :
  let (d, rcs) :=
    register_many (K := i386_config) (sim_vendor 0 1 []) 33 driver_init in
  rcs = repeat 0 33 /\
  nth_error (rev (live_dev_nums d)) 8 = Some 8 /\
  nth_error (rev (live_dev_nums d)) 32 = Some 8 /\
  count_occ Z.eq_dec (live_dev_nums d) 8 = 2%nat /\
  Z.testbit (nth 0 (dev_mask d) 0) 8 = true /\
  Z.testbit (nth 1 (dev_mask d) 0) 0 = true.
Proof. vm_compute. repeat split. Qed.

(** C2 (remove clears exactly the chip's own bit): evaluated on the code,
    the claim fails.  Two chips are registered, with device numbers 0 and
    1, on devices 0 and 1.  Removing the second clears the whole word
    [dev_mask[0]], [!(1 << 1)] being 0: the chip with number 0 is still
    registered and its bit is clear, so that the next registration hands
    number 0 out again. *)
Theorem remove_clears_whole_word :
  let d2 :=
    fst (register_many (K := i386_config) (sim_vendor 0 1 []) 2
           driver_init) in
  let d := tpm_remove_hardware d2 1 in
  live_dev_nums d2 = [1; 0] /\
  nth 0 (dev_mask d2) 0 = 3 /\
  live_dev_nums d = [0] /\
  nth 0 (dev_mask d) 0 = 0 /\
  live_dev_nums
    (fst (tpm_register_hardware_nopci (K := i386_config) d 2
            (sim_vendor 0 1 []) true (Some 2))) = [0; 0].
Proof. vm_compute. repeat split. Qed.

(** The same defect under the registration that follows: of three
    chips, numbered 0, 1 and 2, the second is removed; the chip
    registered next is numbered 0, like the first chip, not 1. *)
Lemma register_after_remove_reuses_live_number :
  let d3 :=
    fst (register_many (K := i386_config) (sim_vendor 0 1 []) 3
           driver_init) in
  let d := tpm_remove_hardware d3 1 in
  live_dev_nums d3 = [2; 1; 0] /\
  live_dev_nums d = [2; 0] /\
  live_dev_nums
    (fst (tpm_register_hardware_nopci (K := i386_config) d 3
            (sim_vendor 0 1 []) true (Some 3))) = [0; 2; 0].
Proof. vm_compute. repeat split. Qed.

(** The word a removal clears is [dev_mask[dev_num / 8]], not the word
    the registration took the bit from: of nine registered chips the one
    with number 8 is removed, word 1 is cleared, and the bit the chip
    took, bit 8 of word 0, stays set with no chip left to own it. *)
Lemma remove_leaves_own_bit_set :
  let d9 :=
    fst (register_many (K := i386_config) (sim_vendor 0 1 []) 9
           driver_init) in
  let d := tpm_remove_hardware d9 8 in
  live_dev_nums d = [7; 6; 5; 4; 3; 2; 1; 0] /\
  nth 0 (dev_mask d) 0 = 511 /\
  Z.testbit (nth 0 (dev_mask d) 0) 8 = true.
Proof. vm_compute. repeat split. Qed.

Section Proofs.

Context {HW : Type} {K : KernelConfig}.

Implicit Types (w : @world HW) (chip : @tpm_chip HW)
  (v : @tpm_vendor_specific HW) (buf : list byte).

(** ** The length check of [tpm_transmit] *)

(** C4: a command whose encoded length is zero is answered with
    [-ENODATA], one whose encoded length exceeds [bufsiz] with [-E2BIG];
    in both cases the world, and with it the log of vendor calls, the
    chip and the buffer are returned as they were given. *)
Theorem tpm_transmit_length_check fuel w chip buf bufsiz :
  0 <= bufsiz ->
  be32_to_cpu_at buf 2 = 0 \/ bufsiz < be32_to_cpu_at buf 2 ->
  exists rc,
    tpm_transmit fuel w chip buf bufsiz = Some (w, chip, buf, rc) /\
    (be32_to_cpu_at buf 2 = 0 -> rc = - ENODATA) /\
    (bufsiz < be32_to_cpu_at buf 2 -> rc = - E2BIG).
Proof.
  intros Hsz Hlen. unfold tpm_transmit.
  destruct (Z.eqb_spec (be32_to_cpu_at buf 2) 0) as [E0 | N0].
  - exists (- ENODATA). repeat split; auto. intros Hbig. lia.
  - destruct Hlen as [? | Hbig]; [contradiction|].
    destruct (Z.ltb_spec bufsiz (be32_to_cpu_at buf 2)); [|lia].
    exists (- E2BIG). repeat split; auto. intros; contradiction.
Qed.

(** ** The completion wait of [tpm_transmit] *)

Section Timing.

Context {KOk : KernelConfigOk K}.

Lemma long_bits_pos : 0 < BITS_PER_LONG.
Proof. destruct long_bits as [E | E]; rewrite E; lia. Qed.

(** Right after the deadline is set, [jiffies] is the length of the wait
    before it. *)
Lemma deadline_start (j t : Z) :
  0 < t < 2 ^ (BITS_PER_LONG - 1) ->
  to_long (j - to_ulong (j + t)) = - t.
Proof.
  intros Ht. unfold to_long, to_ulong, wrap_unsigned.
  pose proof long_bits_pos.
  rewrite (wrap_signed_congr _ _ (- t)).
  - apply wrap_signed_small; lia.
  - rewrite Zminus_mod_idemp_r. f_equal. lia.
Qed.

(** One sleep brings [jiffies] closer to the deadline by
    [msleep_jiffies], in the wrap-around arithmetic of [time_before]. *)
Lemma sleep_step (j stop r : Z) :
  to_long (j - stop) = - r ->
  0 < r ->
  to_long (to_ulong (j + msleep_jiffies) - stop) = msleep_jiffies - r.
Proof.
  intros Hr Hpos. pose proof long_bits_pos as Hb.
  pose proof msleep_range as Hd.
  pose proof (wrap_signed_range BITS_PER_LONG (j - stop) Hb) as Hrange.
  pose proof (wrap_signed_mod BITS_PER_LONG (j - stop) Hb) as Hmod.
  unfold to_long in *. rewrite Hr in Hrange, Hmod.
  unfold to_ulong, wrap_unsigned.
  rewrite (wrap_signed_congr _ _ (msleep_jiffies - r)).
  - apply wrap_signed_small; lia.
  - rewrite Zminus_mod_idemp_l.
    replace (j + msleep_jiffies - stop) with ((j - stop) + msleep_jiffies)
      by lia.
    rewrite <- Zplus_mod_idemp_l, <- Hmod, Zplus_mod_idemp_l.
    f_equal. lia.
Qed.

Lemma to_ulong_add_l (a b : Z) : to_ulong (to_ulong a + b) = to_ulong (a + b).
Proof. unfold to_ulong, wrap_unsigned. apply Zplus_mod_idemp_l. Qed.

Lemma repeat_app_cons {A : Type} (x : A) (n : nat) (l : list A) :
  repeat x n ++ x :: l = x :: repeat x n ++ l.
Proof.
  induction n as [|n IH]; [reflexivity|].
  cbn [repeat app]. rewrite IH. reflexivity.
Qed.

(** With a status that never completes the loop makes exactly [n] polls,
    [n] sleeps being the least number that reaches the deadline, and
    leaves through the timeout exit. *)
Lemma poll_loop_times_out v (stop : Z) :
  never_completes v ->
  forall (n : nat) w (r : Z),
    to_long (jiffies w - stop) = - r ->
    0 < r ->
    (Z.of_nat n - 1) * msleep_jiffies < r <= Z.of_nat n * msleep_jiffies ->
    forall fuel, (n <= fuel)%nat ->
      poll_loop fuel v stop w =
      Some ({| jiffies := to_ulong (jiffies w + Z.of_nat n * msleep_jiffies);
               hw := status_hw v n (hw w);
               calls := repeat CallStatus n ++ calls w |}, PollTimeout).
Proof.
  intros Hnever. pose proof msleep_range as Hd.
  induction n as [|n IH]; intros w r Hr Hpos Hn fuel Hfuel.
  - cbn in Hn. lia.
  - destruct fuel as [|fuel]; [lia|].
    cbn [poll_loop status_hw].
    destruct (Hnever (hw w)) as [Hc Hx].
    destruct (status v (hw w)) as [h st] eqn:Est. cbn [fst snd] in *.
    destruct (Z.eqb_spec (Z.land (to_u8 st) (req_complete_mask v))
                (req_complete_val v)); [contradiction|].
    destruct (Z.eqb_spec (to_u8 st) (req_canceled v)); [contradiction|].
    unfold time_before, msleep, vendor_called, set_jiffies.
    cbn [jiffies hw calls].
    rewrite (sleep_step _ _ _ Hr Hpos).
    destruct (Z.ltb_spec (msleep_jiffies - r) 0) as [Hlt | Hge].
    + rewrite (IH _ (r - msleep_jiffies)); cbn [jiffies hw calls].
      * rewrite to_ulong_add_l, repeat_app_cons.
        do 3 f_equal. f_equal. lia.
      * rewrite (sleep_step _ _ _ Hr Hpos). lia.
      * lia.
      * lia.
      * lia.
    + assert (n = 0%nat) by nia. subst n.
      cbn [status_hw repeat app]. do 3 f_equal. f_equal. lia.
Qed.

(** Whatever the status register shows, the loop ends within as many
    polls as there are ticks before the deadline. *)
Lemma poll_loop_total v (stop : Z) :
  forall (n : nat) w (r : Z),
    to_long (jiffies w - stop) = - r ->
    0 < r <= Z.of_nat n ->
    forall fuel, (n <= fuel)%nat ->
      exists res, poll_loop fuel v stop w = Some res.
Proof.
  pose proof msleep_range as Hd.
  induction n as [|n IH]; intros w r Hr Hn fuel Hfuel; [lia|].
  destruct fuel as [|fuel]; [lia|].
  cbn [poll_loop].
  destruct (status v (hw w)) as [h st].
  destruct (Z.land (to_u8 st) (req_complete_mask v) =? req_complete_val v);
    [eauto|].
  destruct (to_u8 st =? req_canceled v); [eauto|].
  unfold time_before, msleep, vendor_called, set_jiffies.
  cbn [jiffies hw calls].
  rewrite (sleep_step _ _ _ Hr ltac:(lia)).
  destruct (Z.ltb_spec (msleep_jiffies - r) 0) as [Hlt | Hge]; [|eauto].
  apply (IH _ (r - msleep_jiffies)); cbn [jiffies]; try lia.
  rewrite (sleep_step _ _ _ Hr ltac:(lia)). lia.
Qed.

(** Once it has the chip's semaphore, [tpm_transmit] returns: 120 * HZ
    iterations of the completion wait are always enough. *)
Lemma tpm_transmit_total fuel w chip buf bufsiz :
  tpm_mutex chip = false ->
  (Z.to_nat (2 * 60 * HZ) <= fuel)%nat ->
  exists res, tpm_transmit fuel w chip buf bufsiz = Some res.
Proof.
  intros Hfree Hfuel. unfold tpm_transmit.
  destruct (be32_to_cpu_at buf 2 =? 0); [eauto|].
  destruct (bufsiz <? be32_to_cpu_at buf 2); [eauto|].
  rewrite Hfree. cbn [down].
  destruct (send _ (hw w) buf (be32_to_cpu_at buf 2)) as [h rs].
  destruct (to_int rs <? 0); [eauto|].
  pose proof hz_range as [Hhz Hfit].
  destruct (poll_loop_total (vendor (set_tpm_mutex chip true))
              (to_ulong (jiffies (vendor_called w CallSend h) + 2 * 60 * HZ))
              (Z.to_nat (2 * 60 * HZ)) (vendor_called w CallSend h)
              (2 * 60 * HZ)) with (fuel := fuel) as [[w' res] Hres].
  - apply deadline_start. lia.
  - lia.
  - exact Hfuel.
  - rewrite Hres. destruct res.
    + destruct (recv _ (hw w') buf bufsiz) as [[h' buf'] rr]. eauto.
    + eauto.
    + eauto.
Qed.

(** C5: after a successful send, when the status register never shows
    completion or cancellation, [tpm_transmit] polls it [n] times, a
    sleep after each poll, where [n] sleeps are the least number that
    reaches the deadline of 2 * 60 * HZ ticks set after the send; it then
    calls the vendor's cancel once, releases the chip's semaphore and
    returns [-ETIME].  The call log gains, in order, the send, the [n]
    polls and the one cancel. *)
Theorem tpm_transmit_timeout w chip buf bufsiz :
  be32_to_cpu_at buf 2 <> 0 ->
  be32_to_cpu_at buf 2 <= bufsiz ->
  tpm_mutex chip = false ->
  0 <= to_int (snd (send (vendor chip) (hw w) buf (be32_to_cpu_at buf 2))) ->
  never_completes (vendor chip) ->
  exists n : nat,
    (Z.of_nat n - 1) * msleep_jiffies < 2 * 60 * HZ
      <= Z.of_nat n * msleep_jiffies /\
    forall fuel, (n <= fuel)%nat ->
      tpm_transmit fuel w chip buf bufsiz =
      Some ({| jiffies := to_ulong (jiffies w + Z.of_nat n * msleep_jiffies);
               hw := cancel (vendor chip)
                       (status_hw (vendor chip) n
                          (fst (send (vendor chip) (hw w) buf
                                  (be32_to_cpu_at buf 2))));
               calls := CallCancel :: repeat CallStatus n
                          ++ CallSend :: calls w |},
            set_tpm_mutex chip false, buf, - ETIME).
Proof.
  intros Hnz Hfits Hfree Hsent Hnever.
  pose proof hz_range as [Hhz Hfit]. pose proof msleep_range as Hd.
  set (t := 2 * 60 * HZ) in *. set (d := msleep_jiffies) in *.
  assert (Hq : (Z.of_nat (Z.to_nat ((t + d - 1) / d)) - 1) * d < t
               <= Z.of_nat (Z.to_nat ((t + d - 1) / d)) * d).
  { pose proof (Z.div_mod (t + d - 1) d ltac:(lia)) as Hdm.
    pose proof (Z.mod_pos_bound (t + d - 1) d ltac:(lia)) as Hmb.
    assert (0 <= (t + d - 1) / d) by (apply Z.div_pos; lia).
    rewrite Z2Nat.id by lia. nia. }
  exists (Z.to_nat ((t + d - 1) / d)). split; [exact Hq|].
  intros fuel Hfuel. unfold tpm_transmit.
  destruct (Z.eqb_spec (be32_to_cpu_at buf 2) 0); [contradiction|].
  destruct (Z.ltb_spec bufsiz (be32_to_cpu_at buf 2)); [lia|].
  rewrite Hfree. cbn [down].
  change (vendor (set_tpm_mutex chip true)) with (vendor chip).
  destruct (send (vendor chip) (hw w) buf (be32_to_cpu_at buf 2))
    as [h rs] eqn:Esend.
  cbn [fst snd] in *.
  destruct (Z.ltb_spec (to_int rs) 0); [lia|].
  rewrite (poll_loop_times_out (vendor chip) _ Hnever
             (Z.to_nat ((t + d - 1) / d)) _ t).
  - cbn [jiffies hw calls vendor_called]. reflexivity.
  - apply deadline_start. lia.
  - lia.
  - exact Hq.
  - exact Hfuel.
Qed.

Lemma to_ulong_small (z : Z) : 0 <= z <= INT_MAX -> to_ulong z = z.
Proof.
  intros Hz. unfold to_ulong, wrap_unsigned. apply Z.mod_small.
  unfold INT_MAX in Hz.
  destruct long_bits as [E | E]; rewrite E; lia.
Qed.

End Timing.

(** ** What [tpm_transmit] does to the chip *)

Lemma chip_eta chip :
  set_tpm_mutex (set_data_position chip (data_position chip))
    (tpm_mutex chip) = chip.
Proof. destruct chip; reflexivity. Qed.

(** A return of [tpm_transmit] changes nothing of the chip but the
    semaphore and the read cursor; its result is an [int]; the cursor is
    kept when the result is negative without [recv] having been called,
    and is zero when the result is that of [recv]. *)
Lemma tpm_transmit_cases fuel w chip buf bufsiz w' chip' buf' rc :
  tpm_transmit fuel w chip buf bufsiz = Some (w', chip', buf', rc) ->
  to_int rc = rc /\
  exists p m,
    chip' = set_tpm_mutex (set_data_position chip p) m /\
    ((rc < 0 /\ p = data_position chip /\ buf' = buf) \/
     (p = 0 /\ exists h,
        rc = to_int (snd (recv (vendor chip) h buf bufsiz)) /\
        buf' = snd (fst (recv (vendor chip) h buf bufsiz)))).
Proof.
  unfold tpm_transmit.
  destruct (be32_to_cpu_at buf 2 =? 0).
  { intros [= <- <- <- <-]. split; [reflexivity|].
    exists (data_position chip), (tpm_mutex chip).
    rewrite chip_eta. split; [reflexivity|]. left. cbv. auto. }
  destruct (bufsiz <? be32_to_cpu_at buf 2).
  { intros [= <- <- <- <-]. split; [reflexivity|].
    exists (data_position chip), (tpm_mutex chip).
    rewrite chip_eta. split; [reflexivity|]. left. cbv. auto. }
  destruct (tpm_mutex chip) eqn:Em; cbn [down]; [discriminate|].
  change (vendor (set_tpm_mutex chip true)) with (vendor chip).
  destruct (send (vendor chip) (hw w) buf (be32_to_cpu_at buf 2)) as [h rs].
  destruct (Z.ltb_spec (to_int rs) 0).
  { intros [= <- <- <- <-]. split; [apply to_int_idem|].
    exists (data_position chip), false. split.
    - destruct chip; reflexivity.
    - left. auto. }
  destruct (poll_loop _ _ _ _) as [[w1 [| |]]|]; [| | |discriminate].
  - destruct (recv (vendor chip) (hw w1) buf bufsiz) as [[h' b'] rr] eqn:Er.
    intros [= <- <- <- <-]. split; [apply to_int_idem|].
    exists 0, false. split; [reflexivity|]. right. split; [reflexivity|].
    exists (hw w1). rewrite Er. auto.
  - intros [= <- <- <- <-]. split; [reflexivity|].
    exists (data_position chip), false. split.
    + destruct chip; reflexivity.
    + left. cbv. auto.
  - intros [= <- <- <- <-]. split; [reflexivity|].
    exists (data_position chip), false. split.
    + destruct chip; reflexivity.
    + left. cbv. auto.
Qed.

(** ** The hand-off: [tpm_write] *)

Lemma memcpy_at_0 (dst src : list byte) :
  (length src <= length dst)%nat ->
  memcpy_at dst 0 src = src ++ skipn (length src) dst.
Proof.
  intros H. unfold memcpy_at. cbn [firstn app Nat.add].
  apply firstn_all2. rewrite length_app, length_skipn. lia.
Qed.

Lemma wait_for_reader_idle fuel w chip :
  data_pending chip = 0 -> wait_for_reader fuel w chip = Some w.
Proof. intros E. destruct fuel; cbn; rewrite E; reflexivity. Qed.

Lemma wait_for_reader_returns fuel w chip w' :
  wait_for_reader fuel w chip = Some w' -> data_pending chip = 0.
Proof.
  revert w. induction fuel as [|fuel IH]; intros w; cbn;
    destruct (Z.eqb_spec (data_pending chip) 0); auto; try discriminate.
  apply IH.
Qed.

Section Handoff.

Context {KOk : KernelConfigOk K}.

(** C6, as the code has it: a write of [size] bytes on an open session
    with no result pending copies the first [min size TPM_BUFSIZE] bytes
    of the user's data over the start of the chip's buffer, runs
    [tpm_transmit] on that buffer, stores whatever [tpm_transmit]
    returns, a length or a negative error code, as the pending size,
    arms the timer for 60 * HZ ticks from now, and returns the number of
    bytes it accepted, also when the transaction failed. *)
Theorem tpm_write_idle fuel w chip ubuf size :
  data_pending chip = 0 ->
  buffer_mutex chip = false ->
  tpm_mutex chip = false ->
  length (data_buffer chip) = Z.to_nat TPM_BUFSIZE ->
  0 <= size <= INT_MAX ->
  Z.min size TPM_BUFSIZE <= Z.of_nat (length ubuf) ->
  (Z.to_nat (2 * 60 * HZ) <= fuel)%nat ->
  let n := Z.min size TPM_BUFSIZE in
  let cmd := firstn (Z.to_nat n) ubuf
               ++ skipn (Z.to_nat n) (data_buffer chip) in
  exists w' chip1 resp rc chip',
    tpm_transmit fuel w (set_data_buffer (set_buffer_mutex chip true) cmd)
      cmd TPM_BUFSIZE = Some (w', chip1, resp, rc) /\
    tpm_write fuel w chip ubuf size = Some (w', chip', n) /\
    data_buffer chip' = resp /\
    data_pending chip' = rc /\
    data_position chip' = data_position chip1 /\
    user_read_timer chip' = Some (to_ulong (jiffies w' + 60 * HZ)) /\
    buffer_mutex chip' = false.
Proof.
  intros Hidle Hbm Htm Hlen Hsize Hsrc Hfuel n cmd.
  assert (Hn : 0 <= n <= TPM_BUFSIZE) by (unfold n, TPM_BUFSIZE; lia).
  assert (Hcopy : length (firstn (Z.to_nat n) ubuf) = Z.to_nat n).
  { rewrite length_firstn. unfold n in *. lia. }
  destruct (tpm_transmit_total fuel w
              (set_data_buffer (set_buffer_mutex chip true) cmd) cmd
              TPM_BUFSIZE Htm Hfuel) as [[[[w' chip1] resp] rc] Htx].
  destruct (tpm_transmit_cases _ _ _ _ _ _ _ _ _ Htx) as [Hint _].
  exists w', chip1, resp, rc.
  unfold tpm_write. rewrite (wait_for_reader_idle _ _ _ Hidle), Hbm.
  cbn [down]. rewrite (to_int_small size) by (unfold INT_MAX in *; lia).
  replace (if TPM_BUFSIZE <? size then TPM_BUFSIZE else size) with n
    by (unfold n; destruct (Z.ltb_spec TPM_BUFSIZE size); lia).
  rewrite (to_ulong_small n) by (unfold INT_MAX, TPM_BUFSIZE in *; lia).
  unfold copy_from_user.
  destruct (Z.leb_spec n (Z.of_nat (length ubuf))) as [_ | Hbad];
    [|unfold n in Hbad; lia].
  change (data_buffer (set_buffer_mutex chip true)) with (data_buffer chip).
  rewrite memcpy_at_0 by (rewrite Hcopy, Hlen; unfold TPM_BUFSIZE in *; lia).
  rewrite Hcopy. fold cmd.
  change (data_buffer (set_data_buffer (set_buffer_mutex chip true) cmd))
    with cmd.
  rewrite Htx, Hint.
  eexists. repeat split; reflexivity.
Qed.

End Handoff.

(** A write that leaves a positive pending size leaves the read cursor
    at zero: the size then is what [recv] returned, and [tpm_transmit]
    resets the cursor after [recv]. *)
Lemma tpm_write_resets_cursor fuel w chip0 ubuf size w' chip ret :
  tpm_write fuel w chip0 ubuf size = Some (w', chip, ret) ->
  0 < data_pending chip ->
  data_position chip = 0.
Proof.
  unfold tpm_write.
  destruct (wait_for_reader fuel w chip0) as [w1|] eqn:Ew; [|discriminate].
  apply wait_for_reader_returns in Ew.
  destruct (buffer_mutex chip0); cbn [down]; [discriminate|].
  destruct (copy_from_user _ _ _) as [b left].
  destruct (left =? 0); cbn [negb].
  - destruct (tpm_transmit _ _ _ _ _) as [[[[w2 chip1] b1] rc]|] eqn:Etx;
      [|discriminate].
    destruct (tpm_transmit_cases _ _ _ _ _ _ _ _ _ Etx)
      as [Hint (p & m & -> & Hcase)].
    intros [= <- <- <-]. cbn. rewrite Hint. intros Hpos.
    destruct Hcase as [(Hneg & _) | (-> & _)]; [lia | reflexivity].
  - intros [= <- <- <-]. cbn. lia.
Qed.

(** ** The hand-off: [tpm_read] and the expiry timer *)

(** One read of a pending result. *)
Lemma tpm_read_pending chip size :
  buffer_mutex chip = false ->
  0 < data_pending chip ->
  0 <= data_position chip ->
  data_position chip + data_pending chip <= INT_MAX ->
  0 <= size ->
  let n := Z.min (data_pending chip) size in
  exists chip1,
    tpm_read chip size true =
      Some (chip1, n,
            firstn (Z.to_nat n)
              (skipn (Z.to_nat (data_position chip)) (data_buffer chip))) /\
    data_pending chip1 = data_pending chip - n /\
    data_position chip1 = data_position chip + n /\
    data_buffer chip1 = data_buffer chip /\
    buffer_mutex chip1 = false.
Proof.
  intros Hbm Hpend Hpos Hmax Hsize n. unfold tpm_read, INT_MAX in *.
  change (data_pending (del_singleshot_timer_sync chip))
    with (data_pending chip).
  destruct (Z.ltb_spec 0 (data_pending chip)); [|lia].
  change (buffer_mutex (del_singleshot_timer_sync chip))
    with (buffer_mutex chip).
  rewrite Hbm. cbn [down].
  replace (if size <? data_pending chip then to_int size
           else data_pending chip) with n.
  - eexists. split; [reflexivity|]. cbn.
    rewrite !to_int_small by (unfold n; lia). auto.
  - unfold n. destruct (Z.ltb_spec size (data_pending chip)).
    + rewrite to_int_small by lia. lia.
    + lia.
Qed.

(** A read with nothing pending returns zero bytes. *)
Lemma tpm_read_idle chip size dst_ok :
  data_pending chip = 0 ->
  exists chip', tpm_read chip size dst_ok = Some (chip', 0, []).
Proof.
  intros Hidle. unfold tpm_read.
  change (data_pending (del_singleshot_timer_sync chip))
    with (data_pending chip).
  rewrite Hidle. cbn. eauto.
Qed.

(** C7: a read that succeeds while [pending] bytes are pending returns
    the [min pending size] bytes of the buffer that start at the cursor,
    takes that number off the pending size and adds it to the cursor.
    So, when the first of two reads asks for less than is pending and the
    second for at least the rest, the two return the response in two
    adjoining pieces, nothing lost or repeated, and a third read returns
    zero bytes; after the write that made the response pending the cursor
    is zero, so that the pieces are those of the response from its
    start. *)
Theorem tpm_read_relays_response chip size1 size2 size3 dst_ok :
  buffer_mutex chip = false ->
  0 < data_pending chip ->
  0 <= data_position chip ->
  data_position chip + data_pending chip
    <= Z.of_nat (length (data_buffer chip)) ->
  Z.of_nat (length (data_buffer chip)) <= INT_MAX ->
  0 <= size1 -> 0 <= size2 ->
  let pending := data_pending chip in
  let resp :=
    firstn (Z.to_nat pending)
      (skipn (Z.to_nat (data_position chip)) (data_buffer chip)) in
  let n := Z.min pending size1 in
  exists chip1,
    tpm_read chip size1 true = Some (chip1, n, firstn (Z.to_nat n) resp) /\
    Z.of_nat (length (firstn (Z.to_nat n) resp)) = n /\
    data_pending chip1 = pending - n /\
    data_position chip1 = data_position chip + n /\
    (size1 < pending -> pending - size1 <= size2 ->
     exists chip2 chip3,
       tpm_read chip1 size2 true =
         Some (chip2, pending - size1, skipn (Z.to_nat size1) resp) /\
       firstn (Z.to_nat size1) resp ++ skipn (Z.to_nat size1) resp = resp /\
       Z.of_nat (length resp) = pending /\
       tpm_read chip2 size3 dst_ok = Some (chip3, 0, [])) /\
    (forall fuel w chip0 ubuf size w' ret,
       tpm_write fuel w chip0 ubuf size = Some (w', chip, ret) ->
       data_position chip = 0).
Proof.
  intros Hbm Hpend Hpos Hfit Hmax Hs1 Hs2 pending resp n.
  destruct (tpm_read_pending chip size1 Hbm Hpend Hpos ltac:(lia) Hs1)
    as (chip1 & Hread & Hp1 & Hc1 & Hb1 & Hm1).
  fold pending n in Hread, Hp1, Hc1.
  assert (Hn : 0 <= n <= pending) by (unfold n; lia).
  assert (Hlen : Z.of_nat (length resp) = pending).
  { unfold resp. rewrite length_firstn, length_skipn. unfold pending. lia. }
  exists chip1. repeat split.
  - rewrite Hread. unfold resp. rewrite firstn_firstn.
    replace (Nat.min (Z.to_nat n) (Z.to_nat pending)) with (Z.to_nat n)
      by lia. reflexivity.
  - rewrite length_firstn. lia.
  - exact Hp1.
  - exact Hc1.
  - intros Hlt Hrest.
    assert (En : n = size1) by (unfold n; lia).
    destruct (tpm_read_pending chip1 size2 Hm1 ltac:(lia) ltac:(lia)
                ltac:(lia) Hs2) as (chip2 & Hread2 & Hp2 & Hc2 & Hb2 & Hm2).
    replace (Z.min (data_pending chip1) size2) with (pending - size1)
      in Hread2, Hp2, Hc2 by lia.
    destruct (tpm_read_idle chip2 size3 dst_ok ltac:(lia)) as [chip3 Hread3].
    exists chip2, chip3. repeat split.
    + rewrite Hread2, Hb1, Hc1, En. do 2 f_equal.
      unfold resp.
      rewrite (skipn_firstn_comm (Z.to_nat size1) (Z.to_nat pending)).
      rewrite skipn_skipn.
      f_equal; [lia|]. f_equal. lia.
    + apply firstn_skipn.
    + exact Hlen.
    + exact Hread3.
  - intros fuel w chip0 ubuf size w' ret Hw.
    exact (tpm_write_resets_cursor _ _ _ _ _ _ _ _ Hw Hpend).
Qed.

(** C8: when the timer fires on a session that no read has served, the
    pending size becomes zero and every byte of the buffer is set to
    zero; a read that follows returns zero bytes. *)
Theorem user_reader_timeout_discards chip :
  buffer_mutex chip = false ->
  length (data_buffer chip) = Z.to_nat TPM_BUFSIZE ->
  exists chip',
    user_reader_timeout chip = Some chip' /\
    data_pending chip' = 0 /\
    data_buffer chip' = repeat x00 (Z.to_nat TPM_BUFSIZE) /\
    data_position chip' = data_position chip /\
    forall size dst_ok, exists chip'',
      tpm_read chip' size dst_ok = Some (chip'', 0, []).
Proof.
  intros Hbm Hlen. unfold user_reader_timeout. rewrite Hbm. cbn [down].
  eexists. split; [reflexivity|]. cbn [data_pending data_buffer
    data_position set_buffer_mutex set_data_buffer set_data_pending].
  repeat split.
  - unfold memset_zero. rewrite Hlen, Nat.min_id, memcpy_at_0
      by (rewrite repeat_length; lia).
    rewrite repeat_length, skipn_all2 by lia. apply app_nil_r.
  - intros size dst_ok. apply tpm_read_idle. reflexivity.
Qed.

(** ** The invariant of the hand-off state *)

Lemma cursor_in_buffer_invariant chip :
  cursor_in_buffer chip -> handoff_invariant chip.
Proof. unfold cursor_in_buffer, handoff_invariant. lia. Qed.

Lemma tpm_write_invariant fuel w chip ubuf size w' chip' ret :
  recv_bounded (vendor chip) ->
  cursor_in_buffer chip ->
  tpm_write fuel w chip ubuf size = Some (w', chip', ret) ->
  cursor_in_buffer chip' /\ vendor chip' = vendor chip.
Proof.
  intros Hrecv [Hpos Hsum]. unfold tpm_write.
  destruct (wait_for_reader fuel w chip) as [w1|] eqn:Ew; [|discriminate].
  apply wait_for_reader_returns in Ew.
  destruct (buffer_mutex chip); cbn [down]; [discriminate|].
  destruct (copy_from_user _ _ _) as [b left].
  destruct (left =? 0); cbn [negb].
  - destruct (tpm_transmit _ _ _ _ _) as [[[[w2 chip1] b1] rc]|] eqn:Etx;
      [|discriminate].
    destruct (tpm_transmit_cases _ _ _ _ _ _ _ _ _ Etx)
      as [Hint (p & m & -> & Hcase)].
    intros [= <- <- <-]. unfold cursor_in_buffer. cbn. rewrite Hint.
    split; [|reflexivity].
    destruct Hcase as [(Hneg & -> & _) | (-> & h & -> & _)].
    + cbn [data_position set_data_buffer set_buffer_mutex]. lia.
    + pose proof (Hrecv h b TPM_BUFSIZE ltac:(unfold TPM_BUFSIZE; lia)) as Hle.
      cbn [data_buffer vendor set_data_buffer set_buffer_mutex].
      unfold TPM_BUFSIZE in *. lia.
  - intros [= <- <- <-]. unfold cursor_in_buffer. cbn. split; [lia|auto].
Qed.

Lemma tpm_read_invariant chip size dst_ok chip' ret out :
  0 <= size ->
  cursor_in_buffer chip ->
  tpm_read chip size dst_ok = Some (chip', ret, out) ->
  cursor_in_buffer chip' /\ vendor chip' = vendor chip.
Proof.
  intros Hsize [Hpos Hsum]. unfold tpm_read, TPM_BUFSIZE in *.
  change (data_pending (del_singleshot_timer_sync chip))
    with (data_pending chip).
  change (buffer_mutex (del_singleshot_timer_sync chip))
    with (buffer_mutex chip).
  destruct (Z.ltb_spec 0 (data_pending chip)) as [Hpend | Hidle].
  - destruct (buffer_mutex chip); cbn [down]; [discriminate|].
    destruct dst_ok; intros [= <- <- <-];
      unfold cursor_in_buffer, TPM_BUFSIZE; cbn;
      (split; [|reflexivity]); [|lia].
    destruct (Z.ltb_spec size (data_pending chip)).
    + rewrite (to_int_small size) by lia.
      rewrite !to_int_small by lia. lia.
    + rewrite !to_int_small by lia. lia.
  - intros [= <- <- <-]. unfold cursor_in_buffer, TPM_BUFSIZE. cbn. auto.
Qed.

Lemma session_step_invariant fuel w chip op w' chip' :
  recv_bounded (vendor chip) ->
  op_ok op ->
  cursor_in_buffer chip ->
  session_step fuel (w, chip) op = Some (w', chip') ->
  cursor_in_buffer chip' /\ vendor chip' = vendor chip.
Proof.
  intros Hrecv Hok Hinv. pose proof Hinv as [Hpos Hsum].
  destruct op as [kbuf | ubuf size | size dst_ok | | | buf bufsiz | ticks];
    cbn [session_step op_ok] in *.
  - intros [= <- <-]. unfold open_session, cursor_in_buffer.
    destruct (num_opens chip =? 0); cbn; [|auto].
    destruct kbuf; cbn; split; auto; lia.
  - destruct (0 <? num_opens chip); [|discriminate].
    destruct (tpm_write _ _ _ _ _) as [[[w1 chip1] ret]|] eqn:Ew;
      [|discriminate].
    intros [= <- <-]. exact (tpm_write_invariant _ _ _ _ _ _ _ _ Hrecv Hinv Ew).
  - destruct (0 <? num_opens chip); [|discriminate].
    destruct (tpm_read _ _ _) as [[[chip1 ret] out]|] eqn:Er; [|discriminate].
    intros [= <- <-]. exact (tpm_read_invariant _ _ _ _ _ _ Hok Hinv Er).
  - destruct (user_read_timer chip); [|discriminate].
    unfold user_reader_timeout.
    change (buffer_mutex (set_user_read_timer chip None))
      with (buffer_mutex chip).
    destruct (buffer_mutex chip); cbn [down]; [discriminate|].
    intros [= <- <-]. unfold cursor_in_buffer. cbn. split; [lia|auto].
  - destruct (0 <? num_opens chip); [|discriminate].
    intros [= <- <-]. unfold cursor_in_buffer. cbn. split; [lia|auto].
  - destruct (tpm_transmit _ _ _ _ _) as [[[[w1 chip1] b1] rc]|] eqn:Etx;
      [|discriminate].
    destruct (tpm_transmit_cases _ _ _ _ _ _ _ _ _ Etx)
      as [_ (p & m & -> & Hcase)].
    intros [= <- <-]. unfold cursor_in_buffer. cbn. split; [|reflexivity].
    destruct Hcase as [(_ & -> & _) | (-> & _)]; lia.
  - intros [= <- <-]. auto.
Qed.

Lemma session_run_invariant fuel ops :
  Forall op_ok ops ->
  forall w chip w' chip',
    recv_bounded (vendor chip) ->
    cursor_in_buffer chip ->
    session_run fuel (w, chip) ops = Some (w', chip') ->
    cursor_in_buffer chip'.
Proof.
  induction 1 as [|op ops Hop _ IH]; intros w chip w' chip' Hrecv Hinv;
    cbn [session_run].
  - intros [= <- <-]. exact Hinv.
  - destruct (session_step fuel (w, chip) op) as [[w1 chip1]|] eqn:Es;
      [|discriminate].
    destruct (session_step_invariant _ _ _ _ _ _ Hrecv Hop Hinv Es)
      as [Hinv1 Hv].
    apply IH; [rewrite Hv; exact Hrecv | exact Hinv1].
Qed.

(** C9 (as amended): on a chip as registration leaves it, every
    sequence of session operations (open, write with the transaction it
    runs, read, the timer's discard, release, a transaction run from
    elsewhere in the kernel, time passing) ends in a state where the
    cursor is not negative and cursor plus pending size are at most
    [TPM_BUFSIZE], given that the vendor's [recv] keeps to the capacity
    it is passed.  An open in any such state leaves the cursor where it
    was and, when it succeeds, sets the pending size to zero; the first
    open of the chip finds the cursor at zero. *)
Theorem handoff_invariant_holds fuel addr entry dv num ops w w' chip' :
  recv_bounded entry ->
  Forall op_ok ops ->
  session_run fuel (w, set_registration (new_chip addr entry) dv num) ops
    = Some (w', chip') ->
  handoff_invariant chip' /\
  (forall kbuf,
     let opened := fst (open_session chip' kbuf) in
     data_position opened = data_position chip' /\
     (snd (open_session chip' kbuf) = 0 -> data_pending opened = 0)) /\
  (forall b,
     let opened :=
       fst (open_session (set_registration (new_chip addr entry) dv num)
              (Some b)) in
     data_position opened = 0 /\ data_pending opened = 0).
Proof.
  intros Hrecv Hops Hrun. split; [|split].
  - apply cursor_in_buffer_invariant.
    refine (session_run_invariant fuel ops Hops _ _ _ _ _ _ Hrun).
    + exact Hrecv.
    + unfold cursor_in_buffer, TPM_BUFSIZE. cbn. lia.
  - intros kbuf. unfold open_session.
    destruct (num_opens chip' =? 0); cbn [negb fst snd].
    + destruct kbuf; cbn; split; auto. unfold ENOMEM. discriminate.
    + split; [reflexivity|]. unfold EBUSY. discriminate.
  - intros b. cbn. auto.
Qed.

(** ** [tpm_pcr_read] *)

Lemma poll_loop_calls fuel v stop w w' res :
  poll_loop fuel v stop w = Some (w', res) ->
  (length (calls w) < length (calls w'))%nat.
Proof.
  revert w. induction fuel as [|fuel IH]; intros w; cbn [poll_loop];
    [discriminate|].
  destruct (status v (hw w)) as [h st].
  destruct (_ =? req_complete_val v).
  { intros [= <- <-]. cbn. lia. }
  destruct (_ =? req_canceled v).
  { intros [= <- <-]. cbn. lia. }
  destruct (time_before _ _).
  - intros Hrec. apply IH in Hrec. cbn in Hrec. lia.
  - intros [= <- <-]. cbn. lia.
Qed.

(** A command that passes the length check reaches the vendor: every
    return of [tpm_transmit] then has a longer call log. *)
Lemma tpm_transmit_calls fuel w chip buf bufsiz w' chip' buf' rc :
  be32_to_cpu_at buf 2 <> 0 ->
  be32_to_cpu_at buf 2 <= bufsiz ->
  tpm_transmit fuel w chip buf bufsiz = Some (w', chip', buf', rc) ->
  (length (calls w) < length (calls w'))%nat.
Proof.
  intros Hnz Hfit. unfold tpm_transmit.
  destruct (Z.eqb_spec (be32_to_cpu_at buf 2) 0); [contradiction|].
  destruct (Z.ltb_spec bufsiz (be32_to_cpu_at buf 2)); [lia|].
  destruct (tpm_mutex chip); cbn [down]; [discriminate|].
  destruct (send _ (hw w) buf _) as [h rs].
  destruct (to_int rs <? 0).
  { intros [= <- <- <- <-]. cbn. lia. }
  destruct (poll_loop _ _ _ _) as [[w1 res]|] eqn:Ep; [|discriminate].
  apply poll_loop_calls in Ep. cbn in Ep.
  destruct res.
  - destruct (recv _ (hw w1) buf bufsiz) as [[h' b'] rr].
    intros [= <- <- <- <-]. cbn. lia.
  - intros [= <- <- <- <-]. lia.
  - intros [= <- <- <- <-]. cbn. lia.
Qed.

(** The command [tpm_pcr_read] builds in its 30-byte array carries the
    length 14 of the template. *)
Lemma pcr_read_command_length (stack : list byte) (pcr_idx : Z) :
  length stack = Z.to_nat READ_PCR_RESULT_SIZE ->
  be32_to_cpu_at
    (memcpy_at (memcpy_at stack 0 pcrread) 10 (cpu_to_be32 pcr_idx)) 2 = 14.
Proof.
  intros Hlen.
  do 30 (destruct stack as [|? stack]; [discriminate Hlen|]).
  destruct stack; [|discriminate Hlen].
  reflexivity.
Qed.

(** C10, as the code has it: [tpm_pcr_read] returns [-ENOSPC] without a
    call to the vendor transport exactly when the caller passes a result
    buffer that is not null and a size below 20, and then nothing is
    looked up, transmitted or changed.  With a null result buffer the
    size is not looked at: the chip is looked up, [-ENODEV] is returned
    when there is none, otherwise the PCR-read command is transmitted and
    the result is the one of [tpm_transmit] when that is not positive
    and the status code decoded from the response otherwise; no digest
    is copied. *)
Theorem tpm_pcr_read_size_check fuel w d chip_id pcr_idx res_buf
    res_buf_size stack :
  length stack = Z.to_nat READ_PCR_RESULT_SIZE ->
  let chip_num := to_int (Z.land chip_id TPM_CHIP_NUM_MASK) in
  let cmd :=
    memcpy_at (memcpy_at stack 0 pcrread) 10 (cpu_to_be32 pcr_idx) in
  let call :=
    tpm_pcr_read fuel w d chip_id pcr_idx res_buf res_buf_size stack in
  ((non_null res_buf = true /\ res_buf_size < TPM_DIGEST_SIZE) <->
   (exists w' d' res',
      call = Some (w', d', res', - ENOSPC) /\ calls w' = calls w)) /\
  (non_null res_buf = true -> res_buf_size < TPM_DIGEST_SIZE ->
   call = Some (w, d, res_buf, - ENOSPC)) /\
  (res_buf = None ->
   match tpm_chip_lookup d chip_num with
   | None => call = Some (w, d, None, - ENODEV)
   | Some chip =>
     match tpm_transmit fuel w chip cmd READ_PCR_RESULT_SIZE with
     | None => call = None
     | Some (w', chip', data, rc) =>
       call = Some (w', store_chip d chip', None,
                    if 0 <? rc then to_int (be32_to_cpu_at data 6) else rc)
     end
   end).
Proof.
  intros Hlen chip_num cmd call.
  assert (Hreject : non_null res_buf = true ->
                    res_buf_size < TPM_DIGEST_SIZE ->
                    call = Some (w, d, res_buf, - ENOSPC)).
  { intros Hnn Hlt. unfold call, tpm_pcr_read. rewrite Hnn.
    destruct (Z.ltb_spec res_buf_size TPM_DIGEST_SIZE); [reflexivity | lia]. }
  split; [split|split].
  - intros [Hnn Hlt]. exists w, d, res_buf. auto.
  - intros (w' & d' & res' & Hcall & Hcalls).
    unfold call, tpm_pcr_read in Hcall.
    destruct (non_null res_buf && (res_buf_size <? TPM_DIGEST_SIZE)) eqn:Eg.
    + apply andb_true_iff in Eg as [Hnn Hlt].
      apply Z.ltb_lt in Hlt. auto.
    + fold chip_num cmd in Hcall.
      destruct (tpm_chip_lookup d chip_num) as [chip|]; [|discriminate].
      destruct (tpm_transmit fuel w chip cmd READ_PCR_RESULT_SIZE)
        as [[[[w2 chip2] data] rc]|] eqn:Etx; [|discriminate].
      apply tpm_transmit_calls in Etx.
      * injection Hcall as <- _ _ _. rewrite Hcalls in Etx. lia.
      * unfold cmd. rewrite pcr_read_command_length by exact Hlen. lia.
      * unfold cmd. rewrite pcr_read_command_length by exact Hlen.
        unfold READ_PCR_RESULT_SIZE. lia.
  - exact Hreject.
  - intros ->. unfold call, tpm_pcr_read. cbn [non_null andb].
    fold chip_num cmd.
    destruct (tpm_chip_lookup d chip_num) as [chip|]; [|reflexivity].
    destruct (tpm_transmit fuel w chip cmd READ_PCR_RESULT_SIZE)
      as [[[[w2 chip2] data] rc]|] eqn:Etx; [|reflexivity].
    destruct (tpm_transmit_cases _ _ _ _ _ _ _ _ _ Etx) as [Hint _].
    rewrite Hint. reflexivity.
Qed.

(** ** The chip's semaphore *)

(** In the caller's own flow of control [tpm_transmit] leaves the chip's
    semaphore free on every path on which it took it: after a failed
    send, a cancellation, a timeout, and after [recv], failed or not.
    The two returns of the length check come before [down] and leave it
    as it was, free as well. *)
Lemma tpm_transmit_releases_semaphore fuel w chip buf bufsiz
    w' chip' buf' rc :
  tpm_mutex chip = false ->
  tpm_transmit fuel w chip buf bufsiz = Some (w', chip', buf', rc) ->
  tpm_mutex chip' = false.
Proof.
  intros Hfree. unfold tpm_transmit.
  destruct (be32_to_cpu_at buf 2 =? 0); [intros [= <- <- <- <-]; auto|].
  destruct (bufsiz <? be32_to_cpu_at buf 2);
    [intros [= <- <- <- <-]; auto|].
  rewrite Hfree. cbn [down].
  destruct (send _ (hw w) buf _) as [h rs].
  destruct (to_int rs <? 0); [intros [= <- <- <- <-]; reflexivity|].
  destruct (poll_loop _ _ _ _) as [[w1 [| |]]|]; [| | |discriminate].
  - destruct (recv _ (hw w1) buf bufsiz) as [[h' b'] rr].
    intros [= <- <- <- <-]. reflexivity.
  - intros [= <- <- <- <-]. reflexivity.
  - intros [= <- <- <- <-]. reflexivity.
Qed.

End Proofs.

(** * The registry over its histories *)

Section RegistryProofs.

Context {HW : Type} {K : KernelConfig}.

Implicit Types (d : @driver HW) (c chip : @tpm_chip HW).

Lemma array_set_length (a : list Z) (i : nat) (v : Z) :
  length (array_set a i v) = length a.
Proof.
  revert i. induction a as [|h t IH]; intros [|i]; cbn; auto.
Qed.

Lemma array_set_nth (a : list Z) (i : nat) (v : Z) :
  (i < length a)%nat -> nth i (array_set a i v) 0 = v.
Proof.
  revert i. induction a as [|h t IH]; intros [|i]; cbn; intros H;
    try lia; auto. apply IH. lia.
Qed.

Lemma array_set_twice (a : list Z) (i : nat) (u v : Z) :
  array_set (array_set a i u) i v = array_set a i v.
Proof.
  revert i. induction a as [|h t IH]; intros [|i]; cbn; auto.
  rewrite IH. reflexivity.
Qed.

(** [1 << j] is not zero for a bit of an [int]. *)
Lemma int_shl_1_nonzero (j : Z) : 0 <= j < 32 -> int_shl 1 j <> 0.
Proof.
  intros Hj.
  assert (Hall : forallb (fun n => negb (int_shl 1 (Z.of_nat n) =? 0))
                   (seq 0 32) = true) by reflexivity.
  pose proof (proj1 (forallb_forall _ _) Hall (Z.to_nat j)) as Hj'.
  cbv beta in Hj'. rewrite Z2Nat.id in Hj' by lia.
  assert (Hin : In (Z.to_nat j) (seq 0 32)) by (apply in_seq; lia).
  specialize (Hj' Hin). intros E. rewrite E in Hj'. discriminate Hj'.
Qed.

(** Taking chips off the list keeps the addresses of the remaining
    chips distinct. *)
Lemma list_del_keeps_addrs_distinct (keep : @tpm_chip HW -> bool)
    (chips : list tpm_chip) :
  NoDup (map chip_addr chips) ->
  NoDup (map chip_addr (filter keep chips)).
Proof.
  intros Hnd. induction chips as [|c chips IH]; [exact Hnd|].
  cbn [map] in Hnd. apply NoDup_cons_iff in Hnd as [Hfresh Hrest].
  cbn [filter]. destruct (keep c); [|exact (IH Hrest)].
  cbn [map]. apply NoDup_cons; [|exact (IH Hrest)].
  intros Hin. apply Hfresh.
  apply in_map_iff in Hin as (c' & Haddr & Hc').
  apply filter_In in Hc' as [Hc' _].
  rewrite <- Haddr. apply in_map. exact Hc'.
Qed.

Lemma NoDup_map_inj {A B : Type} (f : A -> B) (l : list A) (x y : A) :
  NoDup (map f l) -> In x l -> In y l -> f x = f y -> x = y.
Proof.
  induction l as [|z l IH]; cbn; [tauto|].
  intros Hnd Hx Hy E. inversion Hnd as [|? ? Hnot Hrest]; subst.
  destruct Hx as [-> | Hx], Hy as [-> | Hy]; auto.
  - exfalso. apply Hnot. rewrite E. apply in_map. exact Hy.
  - exfalso. apply Hnot. rewrite <- E. apply in_map. exact Hx.
Qed.

Lemma driver_init_ok : registry_ok (@driver_init HW).
Proof.
  unfold registry_ok, driver_init. cbn.
  repeat split; try constructor; intros; contradiction.
Qed.

Lemma register_keeps_registry_ok d dv entry kmalloc_ok misc :
  registry_ok d ->
  registry_ok (fst (tpm_register_hardware_nopci d dv entry kmalloc_ok misc)).
Proof.
  intros (Hlen & Hnd & Hchips & Hdrv). unfold tpm_register_hardware_nopci.
  destruct kmalloc_ok; cbn [negb fst]; [|repeat split; auto; apply Hchips; auto].
  destruct (scan_words _ _ 0) as [[i j]|] eqn:Es;
    [|repeat split; auto; apply Hchips; auto].
  apply scan_words_first in Es. destruct Es as (Hi & Hj & _).
  change (Z.of_nat (Z.to_nat TPM_NUM_MASK_ENTRIES)) with 8 in Hi.
  destruct misc as [m|]; cbn [fst].
  - unfold registry_ok.
    cbn [dev_mask tpm_chip_list drvdata next_addr map chip_addr
         set_registration new_chip].
    split; [rewrite array_set_length; exact Hlen|].
    split.
    { constructor; [|exact Hnd]. intros Hin.
      apply in_map_iff in Hin as (c & Ec & Hc).
      destruct (Hchips c Hc) as [Hlt _]. lia. }
    split.
    { intros c [<- | Hc].
      - cbn. change TPM_NUM_MASK_ENTRIES with 8. lia.
      - destruct (Hchips c Hc). split; [lia | auto]. }
    intros dv' a [[= <- <-] | Hin].
    + eexists. split; [left; reflexivity|]. cbn. auto.
    + apply filter_In in Hin as [Hin _].
      destruct (Hdrv _ _ Hin) as (c & Hc & Ha & Hd). eauto using in_cons.
  - unfold registry_ok. cbn [dev_mask tpm_chip_list drvdata next_addr].
    rewrite !array_set_length. repeat split; auto; apply Hchips; auto.
Qed.

Lemma remove_keeps_registry_ok d dv :
  registry_ok d -> registry_ok (tpm_remove_hardware d dv).
Proof.
  intros Hok. pose proof Hok as (Hlen & Hnd & Hchips & Hdrv).
  unfold tpm_remove_hardware.
  destruct (dev_get_drvdata d dv) as [a|] eqn:Eg; [|exact Hok].
  destruct (find _ (tpm_chip_list d)) as [chip|] eqn:Ef; [|exact Hok].
  unfold registry_ok. cbn [dev_mask tpm_chip_list drvdata next_addr].
  split; [rewrite array_set_length; exact Hlen|].
  split; [apply list_del_keeps_addrs_distinct; exact Hnd|].
  split.
  { intros c Hc. apply filter_In in Hc as [Hc _]. auto. }
  intros dv' a' Hin. unfold dev_set_drvdata in Hin.
  apply filter_In in Hin as [Hin Hkey]. cbn [fst] in Hkey.
  destruct (Hdrv _ _ Hin) as (c & Hc & Ha & Hd).
  exists c. split; [|auto]. apply filter_In. split; [exact Hc|].
  apply negb_true_iff, Nat.eqb_neq. intros Eaddr.
  unfold dev_get_drvdata in Eg.
  destruct (find _ (drvdata d)) as [[dv0 a0]|] eqn:Ee; [|discriminate].
  injection Eg as <-. apply find_some in Ee as [Hin0 Hk0]. cbn in Hk0.
  apply Z.eqb_eq in Hk0. subst dv0.
  destruct (Hdrv _ _ Hin0) as (c0 & Hc0 & Ha0 & Hd0).
  assert (c = c0) by (apply (NoDup_map_inj chip_addr _ _ _ Hnd Hc Hc0); lia).
  subst c0. rewrite Hd0 in Hd. subst dv'.
  rewrite Z.eqb_refl in Hkey. discriminate.
Qed.

Lemma registry_run_ok (ops : list registry_op) d :
  registry_ok d -> registry_ok (registry_run ops d).
Proof.
  revert d. induction ops as [|op ops IH]; intros d Hok; [exact Hok|].
  cbn [registry_run fold_left]. apply IH.
  destruct op; cbn [registry_step];
    [apply register_keeps_registry_ok | apply remove_keeps_registry_ok];
    exact Hok.
Qed.

(** X1: whatever devices are registered and removed, in whatever order
    and with whatever failures of [kmalloc] and [misc_register], every
    chip of the list has a device number between 0 and 87, [dev_mask]
    keeps its 32 words, and no chip structure is in the list twice. *)
Theorem registry_numbers_in_range (ops : list registry_op) :
  let d := registry_run ops (@driver_init HW) in
  (forall c, In c (tpm_chip_list d) -> 0 <= dev_num c <= 87) /\
  length (dev_mask d) = 32%nat /\
  NoDup (map chip_addr (tpm_chip_list d)).
Proof.
  destruct (registry_run_ok ops _ driver_init_ok) as (Hlen & Hnd & Hchips & _).
  cbv zeta. split; [|auto]. intros c Hc. apply Hchips. exact Hc.
Qed.

End RegistryProofs.

Section RegistryLookup.

Context {HW : Type} {K : KernelConfig}.

Implicit Types (d : @driver HW) (c chip : @tpm_chip HW).

(** X2: a registration that succeeds puts the new chip at the head of the
    list; from then on a lookup by the chip's device number and a lookup
    by the wildcard both return the new chip, also when an older chip
    holds the same number, and the device's driver data is the new
    chip. *)
Theorem register_then_lookup d dv entry misc d' :
  tpm_register_hardware_nopci d dv entry true misc = (d', 0) ->
  exists chip,
    tpm_chip_list d' = chip :: tpm_chip_list d /\
    vendor chip = entry /\ dev chip = dv /\
    data_pending chip = 0 /\ num_opens chip = 0 /\
    tpm_chip_lookup d' (dev_num chip) = Some chip /\
    tpm_chip_lookup d' TPM_ANY_NUM = Some chip /\
    dev_get_drvdata d' dv = Some (chip_addr chip).
Proof.
  unfold tpm_register_hardware_nopci. cbn [negb].
  destruct (scan_words _ _ 0) as [[i j]|];
    [|intros H; apply (f_equal snd) in H; discriminate H].
  destruct misc as [m|];
    [|intros H; apply (f_equal snd) in H; discriminate H].
  intros [= <-]. eexists. split; [reflexivity|].
  unfold tpm_chip_lookup, dev_get_drvdata, dev_set_drvdata.
  cbn [tpm_chip_list drvdata find fst snd vendor dev dev_num data_pending
       num_opens chip_addr set_registration new_chip].
  rewrite !Z.eqb_refl, orb_true_r. cbn. repeat split.
Qed.

(** X3: a lookup finds nothing exactly when the list is empty or the
    number is not the wildcard and no chip holds it; what it finds is a
    chip of the list that holds the number, or any chip for the
    wildcard; and with the wildcard it is the head of the list, the chip
    registered last. *)
Theorem tpm_chip_lookup_spec d (n : Z) :
  (tpm_chip_lookup d n = None <->
   tpm_chip_list d = [] \/
   (n <> TPM_ANY_NUM /\
    forall c, In c (tpm_chip_list d) -> dev_num c <> n)) /\
  (forall c, tpm_chip_lookup d n = Some c ->
     In c (tpm_chip_list d) /\ (dev_num c = n \/ n = TPM_ANY_NUM)) /\
  (n = TPM_ANY_NUM -> tpm_chip_lookup d n = hd_error (tpm_chip_list d)).
Proof.
  unfold tpm_chip_lookup. split; [split|split].
  - intros Hnone. destruct (tpm_chip_list d) as [|c0 l] eqn:El; [auto|].
    right. pose proof (find_none _ _ Hnone) as Hall. split.
    + intros ->. specialize (Hall c0 (or_introl eq_refl)).
      cbn in Hall. rewrite Z.eqb_refl, orb_true_r in Hall. discriminate.
    + intros c Hc E. specialize (Hall c Hc). cbn in Hall.
      apply Z.eqb_eq in E. rewrite E in Hall. discriminate.
  - intros [-> | [Hn Hall]]; [reflexivity|].
    destruct (find _ _) as [c|] eqn:Ef; [|reflexivity].
    apply find_some in Ef as [Hc Hp].
    apply orb_true_iff in Hp as [Hp | Hp]; apply Z.eqb_eq in Hp.
    + exfalso. exact (Hall c Hc Hp).
    + contradiction.
  - intros c Hf. apply find_some in Hf as [Hc Hp]. split; [exact Hc|].
    apply orb_true_iff in Hp as [Hp | Hp]; apply Z.eqb_eq in Hp; auto.
  - intros ->. destruct (tpm_chip_list d) as [|c0 l]; [reflexivity|].
    cbn. rewrite Z.eqb_refl, orb_true_r. reflexivity.
Qed.

(** X4: when [misc_register] fails, the registration returns [-ENODEV]
    with the chip list and the driver data as they were, but its undo of
    the bit it had taken, [dev_mask[i] &= !(1 << j)], clears the whole
    word: the bits of the other chips numbered from that word are gone
    as well.  The minor written to the caller's structure before the
    call stays there. *)
Theorem register_undo_clears_word d dv entry (i j : Z) :
  length (dev_mask d) = 32%nat ->
  scan_words (dev_mask d) (Z.to_nat TPM_NUM_MASK_ENTRIES) 0 = Some (i, j) ->
  tpm_register_hardware_nopci d dv entry true None =
    ({| dev_mask := array_set (dev_mask d) (Z.to_nat i) 0;
        tpm_chip_list := tpm_chip_list d;
        drvdata := drvdata d;
        miscdev_minor :=
          set_miscdev_minor d (miscdev entry)
            (if i * TPM_NUM_MASK_ENTRIES + j =? 0 then TPM_MINOR
             else MISC_DYNAMIC_MINOR);
        next_addr := next_addr d |}, - ENODEV).
Proof.
  intros Hlen Hscan. unfold tpm_register_hardware_nopci. cbn [negb].
  rewrite Hscan. apply scan_words_first in Hscan.
  destruct Hscan as (Hi & Hj & _).
  change (Z.of_nat (Z.to_nat TPM_NUM_MASK_ENTRIES)) with 8 in Hi.
  rewrite array_set_nth by lia. rewrite array_set_twice.
  unfold c_lnot. destruct (Z.eqb_spec (int_shl 1 j) 0) as [E | _].
  - exfalso. exact (int_shl_1_nonzero j Hj E).
  - rewrite Z.land_0_r. reflexivity.
Qed.

(** X5: the removal of a device with a registered chip takes that chip,
    and no other, off the list, drops the device's driver data and
    clears the whole word [dev_mask[dev_num / 8]]; a device without
    driver data is left alone, and so removing a device twice is the
    same as removing it once. *)
Theorem tpm_remove_hardware_effect d dv :
  (forall a chip,
     dev_get_drvdata d dv = Some a ->
     find (fun c => Nat.eqb (chip_addr c) a) (tpm_chip_list d) = Some chip ->
     0 <= dev_num chip ->
     tpm_remove_hardware d dv =
       {| dev_mask := array_set (dev_mask d)
                        (Z.to_nat (dev_num chip / 8)) 0;
          tpm_chip_list :=
            filter (fun c => negb (Nat.eqb (chip_addr c) a))
              (tpm_chip_list d);
          drvdata := filter (fun e => negb (fst e =? dv)) (drvdata d);
          miscdev_minor := miscdev_minor d;
          next_addr := next_addr d |}) /\
  (dev_get_drvdata d dv = None -> tpm_remove_hardware d dv = d) /\
  tpm_remove_hardware (tpm_remove_hardware d dv) dv
    = tpm_remove_hardware d dv.
Proof.
  split; [|split].
  - intros a chip Hg Hf Hnum. unfold tpm_remove_hardware.
    rewrite Hg, Hf. change TPM_NUM_MASK_ENTRIES with 8.
    rewrite Z.quot_div_nonneg by lia.
    assert (Hrem : 0 <= Z.rem (dev_num chip) 8 < 32).
    { pose proof (Z.rem_bound_pos (dev_num chip) 8 Hnum ltac:(lia)). lia. }
    unfold c_lnot.
    destruct (Z.eqb_spec (int_shl 1 (Z.rem (dev_num chip) 8)) 0) as [E | _].
    + exfalso. exact (int_shl_1_nonzero _ Hrem E).
    + rewrite Z.land_0_r. reflexivity.
  - intros Hg. unfold tpm_remove_hardware. rewrite Hg. reflexivity.
  - assert (Hgone : forall l : list (Z * nat),
              find (fun e => fst e =? dv)
                (filter (fun e => negb (fst e =? dv)) l) = None).
    { induction l as [|e l IH]; cbn; [reflexivity|].
      destruct (fst e =? dv) eqn:Ee; cbn; [exact IH|].
      rewrite Ee. exact IH. }
    destruct (dev_get_drvdata d dv) as [a|] eqn:Eg.
    + destruct (find (fun c => Nat.eqb (chip_addr c) a) (tpm_chip_list d))
        as [chip|] eqn:Ef.
      * remember (tpm_remove_hardware d dv) as d1 eqn:E1.
        assert (Hnone : dev_get_drvdata d1 dv = None).
        { subst d1. unfold tpm_remove_hardware. rewrite Eg, Ef.
          unfold dev_get_drvdata, dev_set_drvdata. cbn [drvdata].
          rewrite Hgone. reflexivity. }
        unfold tpm_remove_hardware. rewrite Hnone. reflexivity.
      * assert (E : tpm_remove_hardware d dv = d)
          by (unfold tpm_remove_hardware; rewrite Eg, Ef; reflexivity).
        rewrite E. exact E.
    + assert (E : tpm_remove_hardware d dv = d)
        by (unfold tpm_remove_hardware; rewrite Eg; reflexivity).
      rewrite E. exact E.
Qed.

(** X6: on a registry that a history has produced, registering a device
    and removing it again gives back the chip list as it was before the
    two. *)
Theorem register_then_remove d dv entry misc d' :
  registry_ok d ->
  tpm_register_hardware_nopci d dv entry true misc = (d', 0) ->
  tpm_chip_list (tpm_remove_hardware d' dv) = tpm_chip_list d /\
  dev_get_drvdata (tpm_remove_hardware d' dv) dv = None.
Proof.
  intros (Hlen & Hnd & Hchips & Hdrv) Hreg.
  pose proof Hreg as Hreg'. unfold tpm_register_hardware_nopci in Hreg'.
  cbn [negb] in Hreg'.
  destruct (scan_words _ _ 0) as [[i j]|];
    [|apply (f_equal snd) in Hreg'; discriminate Hreg'].
  destruct misc as [m|];
    [|apply (f_equal snd) in Hreg'; discriminate Hreg'].
  injection Hreg' as <-.
  assert (Hgone : forall l : list (Z * nat),
            find (fun e => fst e =? dv)
              (filter (fun e => negb (fst e =? dv)) l) = None).
  { induction l as [|e l IH]; cbn; [reflexivity|].
    destruct (fst e =? dv) eqn:Ee; cbn; [exact IH|].
    rewrite Ee. exact IH. }
  unfold tpm_remove_hardware, dev_get_drvdata, dev_set_drvdata.
  cbn [drvdata tpm_chip_list find fst snd chip_addr set_registration
       new_chip].
  rewrite Z.eqb_refl, Nat.eqb_refl.
  cbn [drvdata tpm_chip_list dev_num filter chip_addr negb fst].
  rewrite Z.eqb_refl, Nat.eqb_refl. cbn [negb].
  split.
  - apply forallb_filter_id. apply forallb_forall. intros c Hc.
    destruct (Hchips c Hc) as [Hlt _].
    apply negb_true_iff, Nat.eqb_neq. cbn [snd]. lia.
  - rewrite Hgone. reflexivity.
Qed.

End RegistryLookup.

(** * More on the transaction engine *)

Section TransmitMore.

Context {HW : Type} {K : KernelConfig}.

Implicit Types (w : @world HW) (chip : @tpm_chip HW)
  (v : @tpm_vendor_specific HW) (buf : list byte).

Lemma poll_loop_log fuel v stop w w' res :
  poll_loop fuel v stop w = Some (w', res) ->
  exists k : nat,
    (1 <= k)%nat /\ calls w' = repeat CallStatus k ++ calls w.
Proof.
  revert w. induction fuel as [|fuel IH]; intros w; cbn [poll_loop];
    [discriminate|].
  destruct (status v (hw w)) as [h st].
  destruct (_ =? req_complete_val v).
  { intros [= <- <-]. exists 1%nat. split; [lia | reflexivity]. }
  destruct (_ =? req_canceled v).
  { intros [= <- <-]. exists 1%nat. split; [lia | reflexivity]. }
  destruct (time_before _ _).
  - intros Hrec. destruct (IH _ Hrec) as (k & Hk & Hcalls).
    exists (S k). split; [lia|]. rewrite Hcalls.
    cbn [calls msleep set_jiffies vendor_called].
    rewrite repeat_app_cons. reflexivity.
  - intros [= <- <-]. exists 1%nat. split; [lia | reflexivity].
Qed.

(** A command that passes the length check is handed to the vendor's
    send before [tpm_transmit] returns, whatever it returns. *)
Lemma tpm_transmit_sends fuel w chip buf bufsiz w' chip' buf' rc :
  tpm_transmit fuel w chip buf bufsiz = Some (w', chip', buf', rc) ->
  be32_to_cpu_at buf 2 <> 0 ->
  be32_to_cpu_at buf 2 <= bufsiz ->
  exists log, calls w' = log ++ CallSend :: calls w.
Proof.
  unfold tpm_transmit. cbv zeta. intros Htx N0 Hfit.
  destruct (Z.eqb_spec (be32_to_cpu_at buf 2) 0) as [E0 | _];
    [contradiction|].
  destruct (Z.ltb_spec bufsiz (be32_to_cpu_at buf 2)) as [Hbig | _];
    [lia|].
  destruct (tpm_mutex chip); cbn [down] in Htx; [discriminate|].
  destruct (send _ (hw w) buf _) as [h rs].
  destruct (to_int rs <? 0).
  { injection Htx as <- _ _ _. exists nil. reflexivity. }
  destruct (poll_loop _ _ _ _) as [[w1 res]|] eqn:Ep; [|discriminate].
  apply poll_loop_log in Ep. destruct Ep as (k & _ & Hcalls).
  cbn [calls vendor_called] in Hcalls.
  destruct res.
  - destruct (recv _ (hw w1) buf bufsiz) as [[h' b'] rr].
    injection Htx as <- _ _ _. exists (CallRecv :: repeat CallStatus k).
    cbn. rewrite Hcalls. reflexivity.
  - injection Htx as <- _ _ _. exists (repeat CallStatus k). exact Hcalls.
  - injection Htx as <- _ _ _. exists (CallCancel :: repeat CallStatus k).
    cbn. rewrite Hcalls. reflexivity.
Qed.

(** X7: the calls [tpm_transmit] makes to the vendor transport, read off
    the log when it returns.  A command the length check turns away
    reaches no vendor operation.  Otherwise there is exactly one send,
    and then either nothing more (the send failed), or one or more
    status polls followed by exactly one of: a recv (completion), nothing
    (cancellation, [-ECANCELED]), a cancel (timeout, [-ETIME]).  So recv
    is never called without a poll before it, and never together with
    cancel. *)
Theorem tpm_transmit_call_pattern fuel w chip buf bufsiz w' chip' buf' rc :
  tpm_transmit fuel w chip buf bufsiz = Some (w', chip', buf', rc) ->
  let count := be32_to_cpu_at buf 2 in
  (w' = w /\
   ((count = 0 /\ rc = - ENODATA) \/
    (count <> 0 /\ bufsiz < count /\ rc = - E2BIG))) \/
  (count <> 0 /\ count <= bufsiz /\
   ((calls w' = CallSend :: calls w /\ rc < 0) \/
    exists k : nat, (1 <= k)%nat /\
      (calls w' = CallRecv :: repeat CallStatus k ++ CallSend :: calls w \/
       (calls w' = repeat CallStatus k ++ CallSend :: calls w /\
        rc = - ECANCELED) \/
       (calls w' = CallCancel :: repeat CallStatus k ++ CallSend :: calls w /\
        rc = - ETIME)))).
Proof.
  unfold tpm_transmit. cbv zeta.
  destruct (Z.eqb_spec (be32_to_cpu_at buf 2) 0) as [E0 | N0].
  { intros [= <- <- <- <-]. left. auto. }
  destruct (Z.ltb_spec bufsiz (be32_to_cpu_at buf 2)) as [Hbig | Hfit].
  { intros [= <- <- <- <-]. left. auto. }
  destruct (tpm_mutex chip); cbn [down]; [discriminate|].
  destruct (send _ (hw w) buf _) as [h rs].
  destruct (Z.ltb_spec (to_int rs) 0) as [Hneg | Hsent].
  { intros [= <- <- <- <-]. right. split; [exact N0|].
    split; [exact Hfit|]. left. auto. }
  destruct (poll_loop _ _ _ _) as [[w1 res]|] eqn:Ep; [|discriminate].
  apply poll_loop_log in Ep. destruct Ep as (k & Hk & Hcalls).
  cbn [calls vendor_called] in Hcalls.
  destruct res.
  - destruct (recv _ (hw w1) buf bufsiz) as [[h' b'] rr].
    intros [= <- <- <- <-]. right. split; [exact N0|].
    split; [exact Hfit|]. right. exists k. split; [exact Hk|].
    left. cbn. rewrite Hcalls. reflexivity.
  - intros [= <- <- <- <-]. right. split; [exact N0|].
    split; [exact Hfit|]. right. exists k. split; [exact Hk|].
    right. left. auto.
  - intros [= <- <- <- <-]. right. split; [exact N0|].
    split; [exact Hfit|]. right. exists k. split; [exact Hk|].
    right. right. cbn. rewrite Hcalls. auto.
Qed.

End TransmitMore.

Section TransmitOutcome.

Context {HW : Type} {K : KernelConfig} {KOk : KernelConfigOk K}.

Implicit Types (w : @world HW) (chip : @tpm_chip HW)
  (v : @tpm_vendor_specific HW) (buf : list byte).

Lemma polls_pending_shift v (m : nat) (h : HW) :
  polls_pending v (S m) h ->
  (Z.land (status_at v h) (req_complete_mask v) <> req_complete_val v /\
   status_at v h <> req_canceled v) /\
  polls_pending v m (fst (status v h)).
Proof.
  intros Hp. split.
  - exact (Hp 0%nat ltac:(lia)).
  - intros k Hk. exact (Hp (S k) ltac:(lia)).
Qed.

(** The wait ends at the first poll that shows completion or
    cancellation, when that poll comes before the deadline. *)
Lemma poll_loop_decides v (stop : Z) (res : poll_result) :
  forall (m : nat) w (r : Z),
    polls_pending v m (hw w) ->
    (if Z.land (status_at v (status_hw v m (hw w))) (req_complete_mask v)
        =? req_complete_val v
     then res = PollComplete
     else status_at v (status_hw v m (hw w)) = req_canceled v /\
          res = PollCanceled) ->
    to_long (jiffies w - stop) = - r ->
    Z.of_nat m * msleep_jiffies < r ->
    forall fuel, (S m <= fuel)%nat ->
      exists w',
        poll_loop fuel v stop w = Some (w', res) /\
        hw w' = fst (status v (status_hw v m (hw w))) /\
        calls w' = repeat CallStatus (S m) ++ calls w /\
        to_ulong (jiffies w')
          = to_ulong (jiffies w + Z.of_nat m * msleep_jiffies).
Proof.
  pose proof msleep_range as Hd.
  induction m as [|m IH]; intros w r Hpend Hlast Hr Hm fuel Hfuel;
    (destruct fuel as [|fuel]; [lia|]); cbn [poll_loop].
  - cbn [status_hw] in *. unfold status_at in Hlast.
    destruct (status v (hw w)) as [h st] eqn:Est. cbn [fst snd] in *.
    destruct (Z.land (to_u8 st) (req_complete_mask v)
              =? req_complete_val v).
    + subst res. eexists. split; [reflexivity|].
      cbn. repeat split. f_equal. lia.
    + destruct Hlast as [-> ->]. rewrite Z.eqb_refl.
      eexists. split; [reflexivity|]. cbn. repeat split. f_equal. lia.
  - apply polls_pending_shift in Hpend as [[Hc Hx] Hpend].
    cbn [status_hw] in *. unfold status_at in Hc, Hx.
    destruct (status v (hw w)) as [h st] eqn:Est. cbn [fst snd] in *.
    destruct (Z.eqb_spec (Z.land (to_u8 st) (req_complete_mask v))
                (req_complete_val v)); [contradiction|].
    destruct (Z.eqb_spec (to_u8 st) (req_canceled v)); [contradiction|].
    unfold time_before, msleep, vendor_called, set_jiffies.
    cbn [jiffies hw calls].
    rewrite (sleep_step _ _ _ Hr ltac:(lia)).
    destruct (Z.ltb_spec (msleep_jiffies - r) 0) as [_ | Hge]; [|lia].
    destruct (IH {| jiffies := to_ulong (jiffies w + msleep_jiffies);
                    hw := h; calls := CallStatus :: calls w |}
                (r - msleep_jiffies) Hpend Hlast
                ltac:(cbn [jiffies];
                      rewrite (sleep_step _ _ _ Hr ltac:(lia)); lia)
                ltac:(lia) fuel ltac:(lia))
      as (w' & Hrun & Hhw & Hcalls & Hj).
    exists w'. split; [exact Hrun|]. split; [exact Hhw|].
    cbn [calls jiffies] in Hcalls, Hj.
    split.
    + rewrite Hcalls, repeat_app_cons. reflexivity.
    + rewrite Hj, to_ulong_add_l. f_equal. lia.
Qed.

(** X9: a response that becomes ready in time is received.  When the
    send succeeds, the first [m] polls show neither completion nor
    cancellation, the next poll shows completion, and [m] sleeps fit
    before the deadline, then [tpm_transmit] polls [m + 1] times, calls
    recv once on the hardware as that last poll left it, sets the read
    cursor to zero, frees the semaphore and returns what recv returned,
    with the buffer as recv left it; cancel is not called. *)
Theorem tpm_transmit_completes w chip buf bufsiz (m : nat) :
  let v := vendor chip in
  let count := be32_to_cpu_at buf 2 in
  let sent := send v (hw w) buf count in
  let ready := status_hw v m (fst sent) in
  let received := recv v (fst (status v ready)) buf bufsiz in
  count <> 0 ->
  count <= bufsiz ->
  tpm_mutex chip = false ->
  0 <= to_int (snd sent) ->
  polls_pending v m (fst sent) ->
  Z.land (status_at v ready) (req_complete_mask v) = req_complete_val v ->
  Z.of_nat m * msleep_jiffies < 2 * 60 * HZ ->
  forall fuel, (S m <= fuel)%nat ->
    exists w',
      tpm_transmit fuel w chip buf bufsiz =
        Some (w', set_tpm_mutex (set_data_position chip 0) false,
              snd (fst received), to_int (snd received)) /\
      hw w' = fst (fst received) /\
      calls w' = CallRecv :: repeat CallStatus (S m) ++ CallSend :: calls w /\
      to_ulong (jiffies w')
        = to_ulong (jiffies w + Z.of_nat m * msleep_jiffies).
Proof.
  intros v count sent ready received Hnz Hfits Hfree Hsent Hpend Hready
    Htime fuel Hfuel.
  pose proof hz_range as [Hhz Hfit].
  unfold tpm_transmit. fold count.
  destruct (Z.eqb_spec count 0); [contradiction|].
  destruct (Z.ltb_spec bufsiz count); [lia|].
  rewrite Hfree. cbn [down].
  change (vendor (set_tpm_mutex chip true)) with v.
  unfold received, ready, sent in *. clear received ready sent.
  destruct (send v (hw w) buf count) as [h rs]. cbn [fst snd] in *.
  destruct (Z.ltb_spec (to_int rs) 0); [lia|].
  destruct (poll_loop_decides v
              (to_ulong (jiffies (vendor_called w CallSend h) + 2 * 60 * HZ))
              PollComplete m (vendor_called w CallSend h) (2 * 60 * HZ))
    with (fuel := fuel) as (w1 & Hrun & Hhw & Hcalls & Hj).
  - exact Hpend.
  - cbn [hw vendor_called]. apply Z.eqb_eq in Hready. rewrite Hready.
    reflexivity.
  - apply deadline_start. lia.
  - exact Htime.
  - exact Hfuel.
  - rewrite Hrun. cbn [hw vendor_called] in Hhw. rewrite Hhw.
    destruct (recv v (fst (status v (status_hw v m h))) buf bufsiz)
      as [[h' b'] rr].
    eexists. split; [reflexivity|]. cbn [hw calls jiffies vendor_called fst
      snd] in *. rewrite Hcalls. auto.
Qed.

(** X10: a cancelled operation.  When the send succeeds, the first [m]
    polls show neither completion nor cancellation, the next poll shows
    the cancel value and not completion, and [m] sleeps fit before the
    deadline, then [tpm_transmit] returns [-ECANCELED] after [m + 1]
    polls without calling recv or cancel; the buffer and the read cursor
    are as they were and the semaphore is free. *)
Theorem tpm_transmit_canceled w chip buf bufsiz (m : nat) :
  let v := vendor chip in
  let count := be32_to_cpu_at buf 2 in
  let sent := send v (hw w) buf count in
  let last := status_hw v m (fst sent) in
  count <> 0 ->
  count <= bufsiz ->
  tpm_mutex chip = false ->
  0 <= to_int (snd sent) ->
  polls_pending v m (fst sent) ->
  Z.land (status_at v last) (req_complete_mask v) <> req_complete_val v ->
  status_at v last = req_canceled v ->
  Z.of_nat m * msleep_jiffies < 2 * 60 * HZ ->
  forall fuel, (S m <= fuel)%nat ->
    exists w',
      tpm_transmit fuel w chip buf bufsiz =
        Some (w', set_tpm_mutex chip false, buf, - ECANCELED) /\
      hw w' = fst (status v last) /\
      calls w' = repeat CallStatus (S m) ++ CallSend :: calls w.
Proof.
  intros v count sent last Hnz Hfits Hfree Hsent Hpend Hnot Hcancel
    Htime fuel Hfuel.
  pose proof hz_range as [Hhz Hfit].
  unfold tpm_transmit. fold count.
  destruct (Z.eqb_spec count 0); [contradiction|].
  destruct (Z.ltb_spec bufsiz count); [lia|].
  rewrite Hfree. cbn [down].
  change (vendor (set_tpm_mutex chip true)) with v.
  unfold last, sent in *. clear last sent.
  destruct (send v (hw w) buf count) as [h rs]. cbn [fst snd] in *.
  destruct (Z.ltb_spec (to_int rs) 0); [lia|].
  destruct (poll_loop_decides v
              (to_ulong (jiffies (vendor_called w CallSend h) + 2 * 60 * HZ))
              PollCanceled m (vendor_called w CallSend h) (2 * 60 * HZ))
    with (fuel := fuel) as (w1 & Hrun & Hhw & Hcalls & Hj).
  - exact Hpend.
  - cbn [hw vendor_called].
    destruct (Z.eqb_spec
                (Z.land (status_at v (status_hw v m h)) (req_complete_mask v))
                (req_complete_val v)); [contradiction | auto].
  - apply deadline_start. lia.
  - exact Htime.
  - exact Hfuel.
  - rewrite Hrun. exists w1. split; [reflexivity|].
    cbn [hw calls vendor_called] in *. auto.
Qed.

End TransmitOutcome.

(** * More on the hand-off *)

Section HandoffMore.

Context {HW : Type} {K : KernelConfig}.

Implicit Types (w : @world HW) (chip : @tpm_chip HW) (buf : list byte).

Lemma wait_for_reader_blocked fuel w chip :
  data_pending chip <> 0 -> wait_for_reader fuel w chip = None.
Proof.
  intros Hne. revert w. induction fuel as [|fuel IH]; intros w; cbn;
    destruct (Z.eqb_spec (data_pending chip) 0); try contradiction; auto.
Qed.

Lemma buffer_mutex_eta chip :
  buffer_mutex chip = false ->
  set_buffer_mutex (set_buffer_mutex chip true) false = chip.
Proof. destruct chip; cbn. intros ->. reflexivity. Qed.

(** X11: a read whose destination cannot be written returns [-EFAULT]
    and copies nothing; pending size, cursor and buffer are as before
    (only the timer is disarmed), so that the same read, repeated with a
    good destination, returns what it would have returned in the first
    place. *)
Theorem tpm_read_fault_retry chip size :
  buffer_mutex chip = false ->
  0 < data_pending chip ->
  tpm_read chip size false
    = Some (del_singleshot_timer_sync chip, - EFAULT, []) /\
  forall size' dst_ok,
    tpm_read (del_singleshot_timer_sync chip) size' dst_ok
      = tpm_read chip size' dst_ok.
Proof.
  intros Hbm Hpend. split; [|reflexivity].
  unfold tpm_read.
  change (data_pending (del_singleshot_timer_sync chip))
    with (data_pending chip).
  change (buffer_mutex (del_singleshot_timer_sync chip))
    with (buffer_mutex chip).
  destruct (Z.ltb_spec 0 (data_pending chip)); [|lia].
  rewrite Hbm. cbn [down]. rewrite buffer_mutex_eta; [reflexivity|].
  exact Hbm.
Qed.

(** X12: an error code in the pending size wedges the session.  A read
    returns the code, copies nothing, disarms the timer and leaves the
    code in place; from then on every further read returns the code
    again, a write waits in its loop however long the model follows it,
    and the timer is not armed to end the wait. *)
Theorem tpm_read_error_wedges chip size dst_ok :
  data_pending chip < 0 ->
  let chip' := del_singleshot_timer_sync chip in
  tpm_read chip size dst_ok = Some (chip', data_pending chip, []) /\
  (forall size' dst_ok',
     tpm_read chip' size' dst_ok' = Some (chip', data_pending chip, [])) /\
  (forall fuel w ubuf n, tpm_write fuel w chip' ubuf n = None) /\
  (forall fuel w, session_step fuel (w, chip') OpTimerFires = None).
Proof.
  intros Hneg chip'.
  assert (Hread : forall (c : @tpm_chip HW) size' dst_ok',
            data_pending c = data_pending chip ->
            tpm_read c size' dst_ok'
              = Some (del_singleshot_timer_sync c, data_pending chip, [])).
  { intros c size' dst_ok' Ec. unfold tpm_read.
    change (data_pending (del_singleshot_timer_sync c))
      with (data_pending c). rewrite Ec.
    destruct (Z.ltb_spec 0 (data_pending chip)); [lia | reflexivity]. }
  split; [apply Hread; reflexivity|]. split; [|split].
  - intros size' dst_ok'. apply (Hread chip'). reflexivity.
  - intros fuel w ubuf n. unfold tpm_write.
    rewrite wait_for_reader_blocked; [reflexivity|].
    unfold chip'. cbn. lia.
  - intros fuel w. reflexivity.
Qed.

(** X13: write, then read it all.  After a write that leaves a positive
    pending size, that size is what the vendor's recv returned and the
    session buffer is the buffer as recv left it; when the size does not
    exceed the buffer, a read of at least that many bytes returns exactly
    the first so many bytes of the buffer and leaves nothing pending, and
    every read after it returns zero bytes. *)
Theorem tpm_write_then_read_all fuel w chip ubuf size w' chip' ret size' :
  tpm_write fuel w chip ubuf size = Some (w', chip', ret) ->
  0 < data_pending chip' ->
  data_pending chip' <= Z.of_nat (length (data_buffer chip')) ->
  Z.of_nat (length (data_buffer chip')) <= INT_MAX ->
  data_pending chip' <= size' ->
  (exists h cmd,
     data_pending chip' = to_int (snd (recv (vendor chip) h cmd TPM_BUFSIZE)) /\
     data_buffer chip' = snd (fst (recv (vendor chip) h cmd TPM_BUFSIZE))) /\
  exists chip'',
    tpm_read chip' size' true =
      Some (chip'', data_pending chip',
            firstn (Z.to_nat (data_pending chip')) (data_buffer chip')) /\
    data_pending chip'' = 0 /\
    forall size'' dst_ok, exists chip3,
      tpm_read chip'' size'' dst_ok = Some (chip3, 0, []).
Proof.
  intros Hw Hpend Hfit Hmax Hsize.
  pose proof (tpm_write_resets_cursor _ _ _ _ _ _ _ _ Hw Hpend) as Hcur.
  split.
  - unfold tpm_write in Hw.
    destruct (wait_for_reader fuel w chip) as [w1|] eqn:Ew; [|discriminate].
    apply wait_for_reader_returns in Ew.
    destruct (buffer_mutex chip); cbn [down] in Hw; [discriminate|].
    destruct (copy_from_user _ _ _) as [b left].
    destruct (left =? 0); cbn [negb] in Hw.
    + destruct (tpm_transmit _ _ _ _ _) as [[[[w2 chip1] b1] rc]|] eqn:Etx;
        [|discriminate].
      destruct (tpm_transmit_cases _ _ _ _ _ _ _ _ _ Etx)
        as [Hint (p & m & -> & Hcase)].
      injection Hw as <- <- <-. cbn in Hpend |- *. rewrite Hint in *.
      destruct Hcase as [(Hneg & _) | (_ & h & Hrc & Hb)]; [lia|].
      exists h. eexists. split; [exact Hrc | exact Hb].
    + injection Hw as <- <- <-. cbn in Hpend. lia.
  - assert (Hbm : buffer_mutex chip' = false).
    { unfold tpm_write in Hw.
      destruct (wait_for_reader fuel w chip); [|discriminate].
      destruct (buffer_mutex chip); cbn [down] in Hw; [discriminate|].
      destruct (copy_from_user _ _ _) as [b left].
      destruct (left =? 0); cbn [negb] in Hw.
      - destruct (tpm_transmit _ _ _ _ _) as [[[[w2 chip1] b1] rc]|];
          [|discriminate].
        injection Hw as <- <- <-. reflexivity.
      - injection Hw as <- <- <-. reflexivity. }
    destruct (tpm_read_pending chip' size' Hbm Hpend ltac:(lia) ltac:(lia)
                ltac:(lia)) as (chip'' & Hread & Hp & Hc & Hb & Hm).
    replace (Z.min (data_pending chip') size') with (data_pending chip')
      in Hread, Hp by lia.
    rewrite Hcur in Hread. cbn [Z.to_nat skipn] in Hread.
    exists chip''. split; [exact Hread|]. split; [lia|].
    intros size'' dst_ok. apply tpm_read_idle. lia.
Qed.

(** X14: the life of a session.  A chip that is not open is opened by
    [open_session] with the buffer [kmalloc] gave, count 1 and nothing
    pending; while it is open every further open is refused with
    [-EBUSY] and changes nothing; a release disarms the timer, discards
    what is pending and brings the count back to 0, from where the chip
    can be opened again; and an open that gets no buffer returns
    [-ENOMEM] with the count back at 0. *)
Theorem open_release_cycle chip b :
  num_opens chip = 0 ->
  let opened := fst (open_session chip (Some b)) in
  snd (open_session chip (Some b)) = 0 /\
  num_opens opened = 1 /\ data_buffer opened = b /\
  data_pending opened = 0 /\
  (forall (c : @tpm_chip HW) kbuf, num_opens c = 1 ->
     open_session c kbuf = (c, - EBUSY) /\
     num_opens (tpm_release c) = 0 /\
     user_read_timer (tpm_release c) = None /\
     data_pending (tpm_release c) = 0 /\
     data_buffer (tpm_release c) = [] /\
     forall b', snd (open_session (tpm_release c) (Some b')) = 0) /\
  snd (open_session chip None) = - ENOMEM /\
  num_opens (fst (open_session chip None)) = 0.
Proof.
  intros Hclosed. destruct chip. cbn in Hclosed. subst.
  cbv zeta. split; [reflexivity|]. split; [reflexivity|].
  split; [reflexivity|]. split; [reflexivity|].
  split; [|split; reflexivity].
  intros c kbuf Hopen. destruct c. cbn in Hopen. subst.
  repeat split.
Qed.

End HandoffMore.

Section SessionLife.

Context {HW : Type} {K : KernelConfig}.

Implicit Types (w : @world HW) (chip : @tpm_chip HW) (d : @driver HW).

Lemma tpm_write_keeps_count fuel w chip ubuf size w' chip' ret :
  tpm_write fuel w chip ubuf size = Some (w', chip', ret) ->
  num_opens chip' = num_opens chip.
Proof.
  unfold tpm_write.
  destruct (wait_for_reader fuel w chip); [|discriminate].
  destruct (buffer_mutex chip); cbn [down]; [discriminate|].
  destruct (copy_from_user _ _ _) as [b left].
  destruct (left =? 0); cbn [negb].
  - destruct (tpm_transmit _ _ _ _ _) as [[[[w2 chip1] b1] rc]|] eqn:Etx;
      [|discriminate].
    destruct (tpm_transmit_cases _ _ _ _ _ _ _ _ _ Etx)
      as [_ (p & m & -> & _)].
    intros [= <- <- <-]. reflexivity.
  - intros [= <- <- <-]. reflexivity.
Qed.

Lemma tpm_read_keeps_count chip size dst_ok chip' ret out :
  tpm_read chip size dst_ok = Some (chip', ret, out) ->
  num_opens chip' = num_opens chip.
Proof.
  unfold tpm_read.
  change (data_pending (del_singleshot_timer_sync chip))
    with (data_pending chip).
  change (buffer_mutex (del_singleshot_timer_sync chip))
    with (buffer_mutex chip).
  destruct (0 <? data_pending chip).
  - destruct (buffer_mutex chip); cbn [down]; [discriminate|].
    destruct dst_ok; intros [= <- <- <-]; reflexivity.
  - intros [= <- <- <-]. reflexivity.
Qed.

Lemma session_step_tidy fuel w chip op w' chip' :
  session_tidy chip ->
  session_step fuel (w, chip) op = Some (w', chip') ->
  session_tidy chip'.
Proof.
  intros [Hcount Hclosed].
  destruct op as [kbuf | ubuf size | size dst_ok | | | buf bufsiz | ticks];
    cbn [session_step].
  - intros [= <- <-]. unfold open_session, session_tidy.
    destruct (Z.eqb_spec (num_opens chip) 0) as [E | N]; cbn [negb fst].
    + destruct (Hclosed E) as [Hp Ht].
      destruct kbuf; cbn; rewrite E; cbn; split; auto; intros; lia.
    + split; [auto|]. intros; contradiction.
  - destruct (Z.ltb_spec 0 (num_opens chip)); [|discriminate].
    destruct (tpm_write _ _ _ _ _) as [[[w1 chip1] ret]|] eqn:Ew;
      [|discriminate].
    intros [= <- <-]. apply tpm_write_keeps_count in Ew.
    unfold session_tidy. rewrite Ew. split; [auto|]. intros; lia.
  - destruct (Z.ltb_spec 0 (num_opens chip)); [|discriminate].
    destruct (tpm_read _ _ _) as [[[chip1 ret] out]|] eqn:Er; [|discriminate].
    intros [= <- <-]. apply tpm_read_keeps_count in Er.
    unfold session_tidy. rewrite Er. split; [auto|]. intros; lia.
  - destruct (user_read_timer chip) eqn:Et; [|discriminate].
    unfold user_reader_timeout.
    change (buffer_mutex (set_user_read_timer chip None))
      with (buffer_mutex chip).
    destruct (buffer_mutex chip); cbn [down]; [discriminate|].
    intros [= <- <-]. unfold session_tidy. cbn. split; auto.
  - destruct (Z.ltb_spec 0 (num_opens chip)); [|discriminate].
    intros [= <- <-]. unfold session_tidy. cbn.
    split; [left; lia | auto].
  - destruct (tpm_transmit _ _ _ _ _) as [[[[w1 chip1] b1] rc]|] eqn:Etx;
      [|discriminate].
    destruct (tpm_transmit_cases _ _ _ _ _ _ _ _ _ Etx)
      as [_ (p & m & -> & _)].
    intros [= <- <-]. exact (conj Hcount Hclosed).
  - intros [= <- <-]. exact (conj Hcount Hclosed).
Qed.

(** X15: along every history of a registered chip's session the chip is
    open at most once, and while it is not open nothing is pending and
    the timer is not armed: no result outlives its session, and the
    timer can go off only while the session that armed it is open. *)
Theorem session_stays_tidy fuel addr entry dv num ops w w' chip' :
  session_run fuel (w, set_registration (new_chip addr entry) dv num) ops
    = Some (w', chip') ->
  (num_opens chip' = 0 \/ num_opens chip' = 1) /\
  (num_opens chip' = 0 ->
     data_pending chip' = 0 /\ user_read_timer chip' = None) /\
  (user_read_timer chip' <> None -> num_opens chip' = 1).
Proof.
  intros Hrun.
  assert (Htidy : session_tidy chip').
  { revert Hrun.
    assert (Hinit : session_tidy
                      (set_registration (new_chip addr entry) dv num))
      by (unfold session_tidy; cbn; auto).
    revert Hinit. generalize (set_registration (new_chip addr entry) dv num).
    revert w. induction ops as [|op ops IH]; intros w c Hc; cbn [session_run].
    - intros [= <- <-]. exact Hc.
    - destruct (session_step fuel (w, c) op) as [[w1 c1]|] eqn:Es;
        [|discriminate].
      apply IH. exact (session_step_tidy _ _ _ _ _ _ Hc Es). }
  destruct Htidy as [Hcount Hclosed].
  split; [exact Hcount|]. split; [exact Hclosed|].
  intros Harmed. destruct Hcount as [E | E]; [|exact E].
  destruct (Hclosed E) as [_ Ht]. contradiction.
Qed.

(** After [entry->miscdev.minor = m] the field reads [m], and the
    fields of the other structures read as before. *)
Lemma get_set_miscdev_minor d (loc loc' : nat) (m : Z) :
  find (fun e => Nat.eqb (fst e) loc') (set_miscdev_minor d loc m)
    = if Nat.eqb loc loc' then Some (loc, m)
      else find (fun e => Nat.eqb (fst e) loc') (miscdev_minor d).
Proof.
  unfold set_miscdev_minor. cbn [find fst].
  destruct (Nat.eqb_spec loc loc') as [-> | Hne]; [reflexivity|].
  induction (miscdev_minor d) as [|e l IH]; [reflexivity|].
  cbn [filter find].
  destruct (Nat.eqb_spec (fst e) loc) as [E | N]; cbn [negb].
  - destruct (Nat.eqb_spec (fst e) loc'); [congruence | exact IH].
  - cbn [find]. destruct (Nat.eqb (fst e) loc'); [reflexivity | exact IH].
Qed.

(** [tpm_open] where the first chip of the list has the minor asked
    for. *)
Lemma tpm_open_head d (l : list (@tpm_chip HW)) chip (mn : Z)
    (b : list byte) :
  tpm_chip_list d = chip :: l ->
  minor_is d mn chip = true ->
  num_opens chip = 0 ->
  (forall c, In c l -> chip_addr c <> chip_addr chip) ->
  let opened := fst (open_session chip (Some b)) in
  let d'' :=
    {| dev_mask := dev_mask d;
       tpm_chip_list := opened :: l;
       drvdata := drvdata d;
       miscdev_minor := miscdev_minor d;
       next_addr := next_addr d |} in
  tpm_open d mn (Some b) = (d'', 0, Some (chip_addr chip)) /\
  snd (fst (tpm_open d'' mn (Some b))) = - EBUSY.
Proof.
  intros Hl Hm Hclosed Hfresh. cbv zeta.
  assert (Hopen : open_session chip (Some b)
                  = (set_data_pending
                       (set_data_buffer (set_num_opens chip 1) b) 0, 0)).
  { unfold open_session. rewrite Hclosed. reflexivity. }
  split.
  - unfold tpm_open. rewrite Hl. cbn [find]. rewrite Hm, Hopen.
    cbn [fst Z.eqb]. unfold store_chip. rewrite Hl. cbn [map chip_addr
      set_data_pending set_data_buffer set_num_opens].
    rewrite Nat.eqb_refl. do 3 f_equal.
    rewrite <- (map_id l) at 2. f_equal. apply map_ext_in. intros c Hc.
    destruct (Nat.eqb_spec (chip_addr c) (chip_addr chip)) as [E | _];
      [|reflexivity].
    exfalso. exact (Hfresh c Hc E).
  - rewrite Hopen. cbn [fst]. unfold tpm_open. cbn [tpm_chip_list find].
    replace (minor_is _ mn _) with (minor_is d mn chip) by reflexivity.
    rewrite Hm. reflexivity.
Qed.

(** X16: opening by minor number.  [tpm_open] compares the minor of the
    vendor structure each chip points to.  With no chip whose structure
    holds the minor asked for it returns [-ENODEV] and changes nothing.
    A registration that succeeds on a registry a history has produced
    writes the new minor [m] to the caller's structure; [tpm_open] with
    [m] then opens the new chip, and only it, and a second [tpm_open]
    with [m] returns [-EBUSY].  The structures at other places keep
    their minor.  But every older chip that was registered with the same
    structure has changed its minor with it, and as the search stops at
    the new chip, no [tpm_open] reaches such a chip any more. *)
Theorem register_then_open d dv entry misc d' (mn : Z) kbuf :
  ((forall c, In c (tpm_chip_list d) ->
      get_miscdev_minor d (miscdev (vendor c)) <> Some mn) ->
   tpm_open d mn kbuf = (d, - ENODEV, None)) /\
  (registry_ok d ->
   tpm_register_hardware_nopci d dv entry true misc = (d', 0) ->
   exists chip m,
     tpm_chip_list d' = chip :: tpm_chip_list d /\
     vendor chip = entry /\
     get_miscdev_minor d' (miscdev entry) = Some m /\
     (dev_num chip = 0 -> TPM_MINOR <> MISC_DYNAMIC_MINOR -> m = TPM_MINOR) /\
     (dev_num chip <> 0 -> misc = Some m) /\
     (forall loc, loc <> miscdev entry ->
        get_miscdev_minor d' loc = get_miscdev_minor d loc) /\
     (forall b,
        let opened := fst (open_session chip (Some b)) in
        let d'' :=
          {| dev_mask := dev_mask d';
             tpm_chip_list := opened :: tpm_chip_list d;
             drvdata := drvdata d';
             miscdev_minor := miscdev_minor d';
             next_addr := next_addr d' |} in
        tpm_open d' m (Some b) = (d'', 0, Some (chip_addr chip)) /\
        snd (fst (tpm_open d'' m (Some b))) = - EBUSY) /\
     (forall c, In c (tpm_chip_list d) ->
        miscdev (vendor c) = miscdev entry ->
        minor_is d' m c = true /\
        forall mn' kbuf',
          snd (tpm_open d' mn' kbuf') <> Some (chip_addr c))).
Proof.
  split.
  - intros Hnone. unfold tpm_open.
    destruct (find _ (tpm_chip_list d)) as [c|] eqn:Ef; [|reflexivity].
    apply find_some in Ef as [Hc Hm]. unfold minor_is in Hm.
    destruct (get_miscdev_minor d (miscdev (vendor c))) as [m|] eqn:Eg;
      [|discriminate].
    apply Z.eqb_eq in Hm. subst m. exfalso. exact (Hnone c Hc Eg).
  - intros (Hlen & Hnd & Hchips & Hdrv) Hreg.
    unfold tpm_register_hardware_nopci in Hreg. cbn [negb] in Hreg.
    destruct (scan_words _ _ 0) as [[i j]|];
      [|apply (f_equal snd) in Hreg; discriminate Hreg].
    destruct misc as [m0|];
      [|apply (f_equal snd) in Hreg; discriminate Hreg].
    injection Hreg as <-.
    set (num := i * TPM_NUM_MASK_ENTRIES + j).
    set (m := if (if num =? 0 then TPM_MINOR else MISC_DYNAMIC_MINOR)
                   =? MISC_DYNAMIC_MINOR
              then m0
              else if num =? 0 then TPM_MINOR else MISC_DYNAMIC_MINOR).
    set (chip := set_registration (new_chip (next_addr d) entry) dv num).
    set (d' := {| dev_mask := _; tpm_chip_list := chip :: tpm_chip_list d;
                  drvdata := _; miscdev_minor := _; next_addr := _ |}).
    assert (Hget : forall loc,
              get_miscdev_minor d' loc
                = if Nat.eqb (miscdev entry) loc then Some m
                  else get_miscdev_minor d loc).
    { intros loc. unfold get_miscdev_minor, d'. cbn [miscdev_minor].
      rewrite get_set_miscdev_minor.
      destruct (Nat.eqb (miscdev entry) loc); reflexivity. }
    assert (Hshared : forall c, miscdev (vendor c) = miscdev entry ->
              forall mn', minor_is d' mn' c = (m =? mn')).
    { intros c Hv mn'. unfold minor_is. rewrite Hget, Hv, Nat.eqb_refl.
      reflexivity. }
    assert (Hfresh : forall c, In c (tpm_chip_list d) ->
              chip_addr c <> chip_addr chip).
    { intros c Hc. destruct (Hchips c Hc) as [Hlt _]. cbn. lia. }
    exists chip, m.
    split; [reflexivity|]. split; [reflexivity|].
    split; [rewrite Hget, Nat.eqb_refl; reflexivity|].
    split.
    { cbn [dev_num chip set_registration]. intros E Hne. unfold m.
      rewrite E. cbn [Z.eqb].
      destruct (Z.eqb_spec TPM_MINOR MISC_DYNAMIC_MINOR);
        [contradiction | reflexivity]. }
    split.
    { cbn [dev_num chip set_registration]. intros Hne. unfold m.
      destruct (Z.eqb_spec num 0) as [E | _]; [contradiction|].
      rewrite Z.eqb_refl. reflexivity. }
    split.
    { intros loc Hne. rewrite Hget.
      destruct (Nat.eqb_spec (miscdev entry) loc); [congruence|reflexivity]. }
    split.
    { intros b. apply (tpm_open_head d' (tpm_chip_list d) chip m b).
      - reflexivity.
      - rewrite (Hshared chip eq_refl). apply Z.eqb_refl.
      - reflexivity.
      - exact Hfresh. }
    intros c Hc Hv. split; [rewrite (Hshared c Hv); apply Z.eqb_refl|].
    intros mn' kbuf' Hopen. unfold tpm_open in Hopen.
    cbn [tpm_chip_list d' find] in Hopen.
    rewrite (Hshared chip eq_refl) in Hopen.
    destruct (Z.eqb_spec m mn') as [Em | Nm].
    + destruct (open_session chip kbuf') as [chip1 rc].
      cbn [snd] in Hopen.
      destruct (rc =? 0); [|discriminate].
      injection Hopen as E. exact (Hfresh c Hc (eq_sym E)).
    + destruct (find _ (tpm_chip_list d)) as [c1|] eqn:Ef;
        [|discriminate Hopen].
      apply find_some in Ef as [Hc1 Hm1].
      destruct (open_session c1 kbuf') as [chip1 rc].
      cbn [snd] in Hopen.
      destruct (rc =? 0); [|discriminate].
      injection Hopen as E.
      assert (c1 = c)
        by (apply (NoDup_map_inj chip_addr _ _ _ Hnd Hc1 Hc); exact E).
      subst c1. rewrite (Hshared c Hv) in Hm1.
      apply Z.eqb_eq in Hm1. contradiction.
Qed.

End SessionLife.

(** * The PCR commands *)

Lemma byte_val_of (z : Z) : byte_val (byte_of z) = z mod 256.
Proof.
  unfold byte_val, byte_of.
  pose proof (Z.mod_pos_bound z 256 ltac:(lia)) as Hm.
  pose proof (Byte.to_of_N_option_map (Z.to_N (z mod 256))) as Hopt.
  destruct (N.leb_spec (Z.to_N (z mod 256)) 255) as [_ | Hbad]; [|lia].
  destruct (Byte.of_N (Z.to_N (z mod 256))) as [b|]; [|discriminate].
  cbn in Hopt. injection Hopt as ->. apply Z2N.id. lia.
Qed.

(** Bit [n] of the byte of [u] at bit offset [k], put back in place. *)
Lemma byte_field_bit (u k n : Z) :
  0 <= k -> 0 <= n ->
  Z.testbit (Z.shiftl ((Z.shiftr u k) mod 256) k) n
    = (k <=? n) && (n <? k + 8) && Z.testbit u n.
Proof.
  intros Hk Hn. rewrite Z.shiftl_spec by lia.
  destruct (Z.leb_spec k n) as [Hle | Hlt]; cbn [andb].
  - change 256 with (2 ^ 8).
    destruct (Z.ltb_spec n (k + 8)) as [Hin | Hout]; cbn [andb].
    + rewrite Z.mod_pow2_bits_low by lia.
      rewrite Z.shiftr_spec by lia. f_equal. lia.
    + apply Z.mod_pow2_bits_high. lia.
  - apply Z.testbit_neg_r. lia.
Qed.

(** What [cpu_to_be32] writes, [be32_to_cpu] reads back. *)
Lemma be32_round_trip (x : Z) :
  be32_to_cpu_at (cpu_to_be32 x) 0 = to_u32 x.
Proof.
  unfold be32_to_cpu_at, cpu_to_be32, byte_at.
  change (Z.to_nat 0) with 0%nat. change (Z.to_nat (0 + 1)) with 1%nat.
  change (Z.to_nat (0 + 2)) with 2%nat. change (Z.to_nat (0 + 3)) with 3%nat.
  cbn [nth]. rewrite !byte_val_of. set (u := to_u32 x).
  assert (Hu : u = u mod 2 ^ 32).
  { unfold u, to_u32, wrap_unsigned. symmetry. apply Z.mod_mod. lia. }
  replace (u mod 256) with (Z.shiftl ((Z.shiftr u 0) mod 256) 0)
    by (rewrite Z.shiftr_0_r, Z.shiftl_0_r; reflexivity).
  apply Z.bits_inj'. intros n Hn.
  rewrite !Z.lor_spec, !byte_field_bit by lia.
  destruct (Z.ltb_spec n 32) as [Hlow | Hhigh].
  - destruct (Z.leb_spec 24 n), (Z.leb_spec 16 n), (Z.leb_spec 8 n),
      (Z.leb_spec 0 n), (Z.ltb_spec n (24 + 8)), (Z.ltb_spec n (16 + 8)),
      (Z.ltb_spec n (8 + 8)), (Z.ltb_spec n (0 + 8)); try lia;
      cbn [andb orb]; rewrite ?orb_false_r; reflexivity.
  - assert (Hf : Z.testbit u n = false)
      by (rewrite Hu; apply Z.mod_pow2_bits_high; lia).
    rewrite Hf, !andb_false_r. reflexivity.
Qed.

Lemma byte_at_app_r (pre l : list byte) (i : Z) :
  0 <= i ->
  byte_at (pre ++ l) (Z.of_nat (length pre) + i) = byte_at l i.
Proof.
  intros Hi. unfold byte_at. f_equal.
  rewrite app_nth2 by lia. f_equal. lia.
Qed.

Lemma byte_at_app_l (l post : list byte) (i : Z) :
  0 <= i < Z.of_nat (length l) ->
  byte_at (l ++ post) i = byte_at l i.
Proof.
  intros Hi. unfold byte_at. f_equal. apply app_nth1. lia.
Qed.

(** A 32-bit field written by [cpu_to_be32] between other bytes reads
    back as the value written. *)
Lemma be32_field (pre post : list byte) (x : Z) :
  be32_to_cpu_at (pre ++ cpu_to_be32 x ++ post) (Z.of_nat (length pre))
    = to_u32 x.
Proof.
  assert (Hat : forall i, 0 <= i < 4 ->
            byte_at (pre ++ cpu_to_be32 x ++ post)
              (Z.of_nat (length pre) + i) = byte_at (cpu_to_be32 x) i).
  { intros i Hi. rewrite byte_at_app_r by lia.
    apply byte_at_app_l. cbn. lia. }
  rewrite <- be32_round_trip. unfold be32_to_cpu_at.
  rewrite <- (Z.add_0_r (Z.of_nat (length pre))) at 1.
  rewrite !Hat by lia. reflexivity.
Qed.

Lemma pcr_read_command_eq (stack : list byte) (pcr_idx : Z) :
  length stack = Z.to_nat READ_PCR_RESULT_SIZE ->
  pcr_read_command stack pcr_idx
    = firstn 10 pcrread ++ cpu_to_be32 pcr_idx ++ skipn 14 stack.
Proof.
  intros Hlen.
  do 30 (destruct stack as [|? stack]; [discriminate Hlen|]).
  destruct stack; [|discriminate Hlen].
  reflexivity.
Qed.

Lemma pcr_extend_command_eq (stack hash : list byte) (pcr_idx : Z) :
  length stack = Z.to_nat EXTEND_PCR_SIZE ->
  length hash = Z.to_nat TPM_DIGEST_SIZE ->
  pcr_extend_command stack pcr_idx hash
    = firstn 10 pcrextend ++ cpu_to_be32 pcr_idx ++ hash.
Proof.
  intros Hlen Hhash.
  do 34 (destruct stack as [|? stack]; [discriminate Hlen|]).
  destruct stack; [|discriminate Hlen].
  do 20 (destruct hash as [|? hash]; [discriminate Hhash|]).
  destruct hash; [|discriminate Hhash].
  reflexivity.
Qed.

Lemma pcr_extend_command_count (stack hash : list byte) (pcr_idx : Z) :
  length stack = Z.to_nat EXTEND_PCR_SIZE ->
  length hash = Z.to_nat TPM_DIGEST_SIZE ->
  be32_to_cpu_at (pcr_extend_command stack pcr_idx hash) 2 = EXTEND_PCR_SIZE.
Proof.
  intros Hlen Hhash. rewrite pcr_extend_command_eq by assumption.
  reflexivity.
Qed.

(** X17: the layout of the two PCR requests.  In the 30-byte array of
    [tpm_pcr_read] the length field is 14, the ordinal 21, the index
    field reads back as the index (as a 32-bit unsigned number), and the
    16 bytes behind the request are what the array held before.  In the
    34-byte array of [tpm_pcr_extend] the length field is 34, the
    ordinal 20, the index field reads back as the index and the 20 bytes
    from offset 14 are the hash. *)
Theorem pcr_commands_layout (stack stack' hash : list byte) (pcr_idx : Z) :
  length stack = Z.to_nat READ_PCR_RESULT_SIZE ->
  length stack' = Z.to_nat EXTEND_PCR_SIZE ->
  length hash = Z.to_nat TPM_DIGEST_SIZE ->
  let rd := pcr_read_command stack pcr_idx in
  let ex := pcr_extend_command stack' pcr_idx hash in
  (length rd = 30%nat /\
   be32_to_cpu_at rd 2 = 14 /\ be32_to_cpu_at rd 6 = 21 /\
   be32_to_cpu_at rd 10 = to_u32 pcr_idx /\
   skipn 14 rd = skipn 14 stack) /\
  (length ex = 34%nat /\
   be32_to_cpu_at ex 2 = 34 /\ be32_to_cpu_at ex 6 = 20 /\
   be32_to_cpu_at ex 10 = to_u32 pcr_idx /\
   skipn 14 ex = hash).
Proof.
  intros Hlen Hlen' Hhash rd ex. unfold rd, ex.
  rewrite pcr_read_command_eq, pcr_extend_command_eq by assumption.
  split.
  - split; [rewrite !length_app, length_skipn, Hlen; reflexivity|].
    split; [reflexivity|]. split; [reflexivity|].
    split; [exact (be32_field (firstn 10 pcrread) _ pcr_idx)|].
    reflexivity.
  - split; [rewrite !length_app, Hhash; reflexivity|].
    split; [reflexivity|]. split; [reflexivity|].
    split; [exact (be32_field (firstn 10 pcrextend) _ pcr_idx)|].
    reflexivity.
Qed.

Section PcrMore.

Context {HW : Type} {K : KernelConfig}.

Implicit Types (w : @world HW) (d : @driver HW) (chip : @tpm_chip HW).

(** X18: [tpm_pcr_extend].  Without a chip of that number it returns
    [-ENODEV] and nothing is touched.  With one, the request always
    passes the length check of [tpm_transmit], so that every return has
    gone through the vendor's send; the result is the one of
    [tpm_transmit] when that is not positive and otherwise the status
    code of the response, read at offset 6. *)
Theorem tpm_pcr_extend_result fuel w d chip_id pcr_idx hash stack :
  length stack = Z.to_nat EXTEND_PCR_SIZE ->
  length hash = Z.to_nat TPM_DIGEST_SIZE ->
  let chip_num := to_int (Z.land chip_id TPM_CHIP_NUM_MASK) in
  let call := tpm_pcr_extend fuel w d chip_id pcr_idx hash stack in
  (tpm_chip_lookup d chip_num = None -> call = Some (w, d, - ENODEV)) /\
  (forall chip, tpm_chip_lookup d chip_num = Some chip ->
     match tpm_transmit fuel w chip
             (pcr_extend_command stack pcr_idx hash) EXTEND_PCR_SIZE with
     | None => call = None
     | Some (w', chip', data, rc) =>
       call = Some (w', store_chip d chip',
                    if 0 <? rc then to_int (be32_to_cpu_at data 6) else rc) /\
       In CallSend (calls w') /\
       (length (calls w) < length (calls w'))%nat
     end).
Proof.
  intros Hlen Hhash chip_num call. unfold call, tpm_pcr_extend.
  fold chip_num. split.
  - intros ->. reflexivity.
  - intros chip ->.
    destruct (tpm_transmit _ _ _ _ _) as [[[[w' chip'] data] rc]|] eqn:Etx;
      [|reflexivity].
    destruct (tpm_transmit_cases _ _ _ _ _ _ _ _ _ Etx) as [Hint _].
    rewrite Hint. split; [reflexivity|].
    pose proof (pcr_extend_command_count stack hash pcr_idx Hlen Hhash)
      as Hfield.
    destruct (tpm_transmit_sends _ _ _ _ _ _ _ _ _ Etx) as [log ->].
    + rewrite Hfield. discriminate.
    + rewrite Hfield. lia.
    + rewrite length_app, in_app_iff. cbn [In length].
      split; [auto | lia].
Qed.

End PcrMore.

Section PcrDigest.

Context {HW : Type} {K : KernelConfig}.

Implicit Types (w : @world HW) (d : @driver HW) (chip : @tpm_chip HW).

Lemma pcr_read_command_tail (stack : list byte) (pcr_idx : Z) :
  length stack = Z.to_nat READ_PCR_RESULT_SIZE ->
  firstn 20 (skipn 10 (pcr_read_command stack pcr_idx))
    = cpu_to_be32 pcr_idx ++ firstn 16 (skipn 14 stack).
Proof.
  intros Hlen. rewrite pcr_read_command_eq by exact Hlen.
  do 30 (destruct stack as [|? stack]; [discriminate Hlen|]).
  destruct stack; [|discriminate Hlen].
  reflexivity.
Qed.

(** X19: what [tpm_pcr_read] hands back through a result buffer of at
    least 20 bytes.  The buffer is written only when the result is 0,
    and then its first 20 bytes become bytes 10 to 29 of the transaction
    buffer, the rest staying as it was.  A transaction that returns 0,
    no response at all, counts as such a success: with the buffer as it
    was sent, the caller gets as "digest" the four bytes of the index of
    its own request followed by 16 bytes that the function's local array
    happened to hold. *)
Theorem tpm_pcr_read_digest fuel w d chip_id pcr_idx dst res_buf_size stack
    chip w' chip' data rc0 :
  length stack = Z.to_nat READ_PCR_RESULT_SIZE ->
  TPM_DIGEST_SIZE <= res_buf_size ->
  (20 <= length dst)%nat ->
  tpm_chip_lookup d (to_int (Z.land chip_id TPM_CHIP_NUM_MASK)) = Some chip ->
  tpm_transmit fuel w chip (pcr_read_command stack pcr_idx)
    READ_PCR_RESULT_SIZE = Some (w', chip', data, rc0) ->
  exists res' rc,
    tpm_pcr_read fuel w d chip_id pcr_idx (Some dst) res_buf_size stack
      = Some (w', store_chip d chip', Some res', rc) /\
    rc = (if 0 <? rc0 then to_int (be32_to_cpu_at data 6) else rc0) /\
    (rc <> 0 -> res' = dst) /\
    (rc = 0 -> (30 <= length data)%nat ->
     res' = firstn 20 (skipn 10 data) ++ skipn 20 dst) /\
    (rc0 = 0 -> data = pcr_read_command stack pcr_idx ->
     rc = 0 /\
     res' = cpu_to_be32 pcr_idx ++ firstn 16 (skipn 14 stack)
              ++ skipn 20 dst).
Proof.
  intros Hlen Hsize Hdst Hlook Htx.
  destruct (tpm_transmit_cases _ _ _ _ _ _ _ _ _ Htx) as [Hint _].
  unfold tpm_pcr_read. cbn [non_null andb].
  destruct (Z.ltb_spec res_buf_size TPM_DIGEST_SIZE); [lia|].
  rewrite Hlook.
  change (memcpy_at (memcpy_at stack 0 pcrread) 10 (cpu_to_be32 pcr_idx))
    with (pcr_read_command stack pcr_idx).
  rewrite Htx, Hint.
  set (rc := if 0 <? rc0 then to_int (be32_to_cpu_at data 6) else rc0).
  change (Z.to_nat TPM_DIGEST_SIZE) with 20%nat.
  destruct (Z.eqb_spec rc 0) as [E | N].
  - eexists. exists rc. split; [reflexivity|]. split; [reflexivity|].
    split; [intros; contradiction|]. split.
    + intros _ Hdata. rewrite memcpy_at_0.
      * rewrite length_firstn, length_skipn.
        replace (Nat.min 20 (length data - 10)) with 20%nat by lia.
        reflexivity.
      * rewrite length_firstn, length_skipn. lia.
    + intros _ ->. split; [exact E|].
      rewrite pcr_read_command_tail by exact Hlen.
      assert (Hl : length (cpu_to_be32 pcr_idx
                             ++ firstn 16 (skipn 14 stack)) = 20%nat).
      { rewrite length_app, length_firstn, length_skipn, Hlen. reflexivity. }
      rewrite memcpy_at_0 by lia. rewrite Hl, <- app_assoc. reflexivity.
  - exists dst, rc. split; [reflexivity|]. split; [reflexivity|].
    split; [reflexivity|]. split; [intros; contradiction|].
    intros E0 _. exfalso. apply N. unfold rc. rewrite E0. reflexivity.
Qed.

End PcrDigest.

Section WriteFault.

Context {HW : Type} {K : KernelConfig} {KOk : KernelConfigOk K}.

(** X20: a write whose source cannot be read in full returns [-EFAULT]
    without a transaction: the world, with the vendor call log, is as it
    was, and so are pending size, cursor, timer and open count, and the
    buffer semaphore is free again.  The session buffer is not as it
    was: the bytes that could be read have been copied to its start,
    zero bytes follow them up to the size of the write (at most the
    capacity), and only what lies behind is kept. *)
Theorem tpm_write_fault fuel (w : @world HW) (chip : @tpm_chip HW)
    (ubuf : list byte) (size : Z) :
  data_pending chip = 0 ->
  buffer_mutex chip = false ->
  length (data_buffer chip) = Z.to_nat TPM_BUFSIZE ->
  0 <= size <= INT_MAX ->
  Z.of_nat (length ubuf) < Z.min size TPM_BUFSIZE ->
  let n := Z.to_nat (Z.min size TPM_BUFSIZE) in
  tpm_write fuel w chip ubuf size
    = Some (w,
            set_data_buffer chip
              (ubuf ++ repeat x00 (n - length ubuf)
                 ++ skipn n (data_buffer chip)),
            - EFAULT).
Proof.
  intros Hidle Hbm Hlen Hsize Hshort n. unfold tpm_write.
  rewrite (wait_for_reader_idle _ _ _ Hidle), Hbm. cbn [down].
  rewrite (to_int_small size) by (unfold INT_MAX in *; lia).
  replace (if TPM_BUFSIZE <? size then TPM_BUFSIZE else size)
    with (Z.min size TPM_BUFSIZE)
    by (destruct (Z.ltb_spec TPM_BUFSIZE size); lia).
  rewrite to_ulong_small by (unfold INT_MAX, TPM_BUFSIZE in *; lia).
  unfold copy_from_user.
  destruct (Z.leb_spec (Z.min size TPM_BUFSIZE) (Z.of_nat (length ubuf)));
    [lia|].
  destruct (Z.eqb_spec (Z.min size TPM_BUFSIZE - Z.of_nat (length ubuf)) 0);
    [lia|].
  cbn [negb]. fold n.
  change (data_buffer (set_buffer_mutex chip true)) with (data_buffer chip).
  assert (Hsrc : length (ubuf ++ repeat x00 (n - length ubuf)) = n).
  { rewrite length_app, repeat_length. unfold n. lia. }
  rewrite memcpy_at_0
    by (rewrite Hsrc, Hlen; unfold n, TPM_BUFSIZE in *; lia).
  rewrite Hsrc, <- app_assoc.
  destruct chip. cbn in Hbm. subst. reflexivity.
Qed.

End WriteFault.

Section Frame.

Context {HW : Type} {K : KernelConfig}.

Implicit Types (w : @world HW) (d : @driver HW) (chip c : @tpm_chip HW).

Lemma same_but_cursor_refl c : same_but_cursor c c.
Proof. unfold same_but_cursor. repeat split. Qed.

Lemma tpm_transmit_frame fuel w chip buf bufsiz w' chip' buf' rc :
  tpm_transmit fuel w chip buf bufsiz = Some (w', chip', buf', rc) ->
  same_but_cursor chip chip'.
Proof.
  intros Htx.
  destruct (tpm_transmit_cases _ _ _ _ _ _ _ _ _ Htx)
    as [_ (p & m & -> & _)].
  unfold same_but_cursor. cbn. repeat split.
Qed.


Lemma store_chip_frame (l : list (@tpm_chip HW)) chip chip' :
  NoDup (map chip_addr l) ->
  In chip l ->
  same_but_cursor chip chip' ->
  Forall2 same_but_cursor l
    (map (fun c => if Nat.eqb (chip_addr c) (chip_addr chip')
                   then chip' else c) l).
Proof.
  intros Hnd Hin Hsame.
  assert (Haddr : chip_addr chip' = chip_addr chip) by apply Hsame.
  rewrite Haddr.
  assert (Hall : forall c, In c l ->
            same_but_cursor c
              (if Nat.eqb (chip_addr c) (chip_addr chip) then chip' else c)).
  { intros c Hc. destruct (Nat.eqb_spec (chip_addr c) (chip_addr chip)).
    - rewrite (NoDup_map_inj chip_addr l c chip Hnd Hc Hin e). exact Hsame.
    - apply same_but_cursor_refl. }
  clear Hnd Hin. induction l as [|c l IH]; cbn; constructor.
  - apply Hall. left. reflexivity.
  - apply IH. intros c' Hc'. apply Hall. right. exact Hc'.
Qed.

(** X22: what the registry keeps across [tpm_pcr_read] and
    [tpm_pcr_extend].  On a registry that a history has produced, every
    return of either leaves [dev_mask], the driver data and the minors
    of the vendor structures as they were and the chip list with the
    same chips in the same order, each of them unchanged but for the
    transaction semaphore and the read cursor: no open count, session
    buffer, pending size or timer is touched. *)
Theorem pcr_calls_keep_registry fuel w d chip_id pcr_idx res_buf
    res_buf_size hash stack :
  registry_ok d ->
  (forall w' d' res' rc,
     tpm_pcr_read fuel w d chip_id pcr_idx res_buf res_buf_size stack
       = Some (w', d', res', rc) ->
     dev_mask d' = dev_mask d /\ drvdata d' = drvdata d /\
     miscdev_minor d' = miscdev_minor d /\
     Forall2 same_but_cursor (tpm_chip_list d) (tpm_chip_list d')) /\
  (forall w' d' rc,
     tpm_pcr_extend fuel w d chip_id pcr_idx hash stack = Some (w', d', rc) ->
     dev_mask d' = dev_mask d /\ drvdata d' = drvdata d /\
     miscdev_minor d' = miscdev_minor d /\
     Forall2 same_but_cursor (tpm_chip_list d) (tpm_chip_list d')).
Proof.
  intros (Hlen & Hnd & Hchips & Hdrv).
  assert (Hsame : forall l : list (@tpm_chip HW),
            Forall2 same_but_cursor l l).
  { induction l; constructor; auto using same_but_cursor_refl. }
  split.
  - intros w' d' res' rc. unfold tpm_pcr_read.
    destruct (non_null res_buf && _).
    { intros [= <- <- <- <-]. auto. }
    destruct (tpm_chip_lookup d _) as [chip|] eqn:El.
    + destruct (tpm_transmit _ _ _ _ _) as [[[[w2 chip2] data] rc0]|] eqn:Etx;
        [|discriminate].
      intros [= <- <- <- <-].
      cbn [dev_mask drvdata miscdev_minor tpm_chip_list store_chip].
      split; [reflexivity|]. split; [reflexivity|]. split; [reflexivity|].
      apply (store_chip_frame _ chip chip2); [exact Hnd | |].
      * unfold tpm_chip_lookup in El. apply find_some in El. apply El.
      * exact (tpm_transmit_frame _ _ _ _ _ _ _ _ _ Etx).
    + intros [= <- <- <- <-]. auto.
  - intros w' d' rc. unfold tpm_pcr_extend.
    destruct (tpm_chip_lookup d _) as [chip|] eqn:El.
    + destruct (tpm_transmit _ _ _ _ _) as [[[[w2 chip2] data] rc0]|] eqn:Etx;
        [|discriminate].
      intros [= <- <- <-].
      cbn [dev_mask drvdata miscdev_minor tpm_chip_list store_chip].
      split; [reflexivity|]. split; [reflexivity|]. split; [reflexivity|].
      apply (store_chip_frame _ chip chip2); [exact Hnd | |].
      * unfold tpm_chip_lookup in El. apply find_some in El. apply El.
      * exact (tpm_transmit_frame _ _ _ _ _ _ _ _ _ Etx).
    + intros [= <- <- <-]. auto.
Qed.

End Frame.

Section SuspendProofs.

Context {HW : Type} {K : KernelConfig}.


End SuspendProofs.

(** * Worked examples *)

#[local] Existing Instance i386_config.

Lemma i386_config_ok : KernelConfigOk i386_config.
Proof.
  constructor; cbn.
  - left. reflexivity.
  - split; reflexivity.
  - split; reflexivity.
Qed.

Lemma to_int_le (x : Z) : 0 <= x -> to_int x <= x.
Proof.
  intros Hx. unfold to_int, wrap_signed. cbv zeta.
  pose proof (Z.mod_le x (2 ^ 32) Hx ltac:(lia)).
  destruct (x mod 2 ^ 32 <? 2 ^ (32 - 1)); lia.
Qed.

Lemma sim_vendor_recv_bounded (send_rc st : Z) (resp : list byte) :
  recv_bounded (sim_vendor send_rc st resp).
Proof.
  intros h buf n Hn. cbn [recv sim_vendor].
  destruct (Z.ltb_spec n (Z.of_nat (length resp))); cbn [snd].
  - change (to_int (-5)) with (-5). lia.
  - pose proof (to_int_le (Z.of_nat (length resp)) ltac:(lia)). lia.
Qed.

(** A command with length field zero is turned away with [-ENODATA]. *)
Lemma tpm_transmit_length_check_witness :
  tpm_transmit (K := i386_config) 0 sim_world (sim_chip sim_ready)
    (repeat x00 10) 10
  = Some (sim_world, sim_chip sim_ready, repeat x00 10, - ENODATA).
Proof.
  destruct (tpm_transmit_length_check (K := i386_config) 0 sim_world
              (sim_chip sim_ready) (repeat x00 10) 10
              ltac:(lia) (or_introl eq_refl)) as (rc & Hrun & Hzero & _).
  rewrite Hrun, (Hzero eq_refl). reflexivity.
Defined.

(** At 100 ticks per second and two ticks per sleep, a status that stays
    0 is polled 6000 times before the transaction is given up. *)
Lemma tpm_transmit_timeout_witness :
  exists n : nat,
    (Z.of_nat n - 1) * 2 < 12000 <= Z.of_nat n * 2 /\
    option_map snd
      (tpm_transmit (K := i386_config) n sim_world
         (sim_chip (sim_vendor 0 0 [])) pcrread 30) = Some (- ETIME).
Proof.
  destruct (tpm_transmit_timeout (K := i386_config) (KOk := i386_config_ok)
              sim_world (sim_chip (sim_vendor 0 0 [])) pcrread 30)
    as (n & Hn & Hrun).
  - vm_compute. discriminate.
  - vm_compute. discriminate.
  - reflexivity.
  - vm_compute. discriminate.
  - intros []. vm_compute. split; discriminate.
  - exists n. split; [exact Hn|].
    rewrite (Hrun n (le_n n)). reflexivity.
Defined.

(** C6 as stated (a negative result of [tpm_transmit] is propagated to
    the caller of write) fails: a ten-byte write whose length field is
    zero makes [tpm_transmit] return [-ENODATA]; [tpm_write] returns 10
    all the same and keeps [-ENODATA] as the pending size. *)
Lemma tpm_write_returns_count_on_error :
  let chip := sim_chip sim_ready in
  let ubuf := repeat x00 10 in
  let cmd := firstn 10 ubuf ++ skipn 10 (data_buffer chip) in
  option_map snd
    (tpm_transmit (K := i386_config) 0 sim_world
       (set_data_buffer (set_buffer_mutex chip true) cmd) cmd TPM_BUFSIZE)
    = Some (- ENODATA) /\
  option_map snd (tpm_write (K := i386_config) 0 sim_world chip ubuf 10)
    = Some 10 /\
  option_map (fun r => data_pending (snd (fst r)))
    (tpm_write (K := i386_config) 0 sim_world chip ubuf 10)
    = Some (- ENODATA).
Proof. vm_compute. repeat split. Qed.

(** Beyond [INT_MAX] the size is cut down by [int in_size = size]: on a
    64-bit kernel a write of 2^32 + 4 bytes takes four bytes and returns
    4. *)
Lemma tpm_write_size_beyond_int :
  option_map snd
    (tpm_write (K := amd64_config) 1 sim_world (sim_chip sim_ready)
       pcrread 4294967300) = Some 4.
Proof. vm_compute. reflexivity. Qed.

(** A write of the 14-byte PCR-read template is accepted in full and
    arms the timer. *)
Lemma tpm_write_idle_witness :
  exists w' chip',
    tpm_write (K := i386_config) (Z.to_nat (2 * 60 * HZ)) sim_world
      (sim_chip sim_ready) pcrread 14 = Some (w', chip', 14) /\
    user_read_timer chip' =
      Some (to_ulong (K := i386_config) (jiffies w' + 60 * HZ)).
Proof.
  destruct (tpm_write_idle (K := i386_config) (KOk := i386_config_ok)
              (Z.to_nat (2 * 60 * HZ)) sim_world (sim_chip sim_ready)
              pcrread 14)
    as (w' & chip1 & resp & rc & chip' & _ & Hw & _ & _ & _ & Ht & _).
  - reflexivity.
  - reflexivity.
  - reflexivity.
  - reflexivity.
  - vm_compute. split; discriminate.
  - vm_compute. discriminate.
  - apply le_n.
  - exists w', chip'. split; [exact Hw | exact Ht].
Defined.

(** The ten pending bytes are read as four bytes and then six. *)
Lemma tpm_read_relays_response_witness :
  exists chip1 chip2,
    tpm_read sim_pending_chip 4 true
      = Some (chip1, 4, bytes_of [0; 196; 0; 0]) /\
    tpm_read chip1 100 true
      = Some (chip2, 6, bytes_of [0; 10; 0; 0; 0; 0]).
Proof.
  destruct (tpm_read_relays_response sim_pending_chip 4 100 1 true)
    as (chip1 & Hr1 & _ & _ & _ & Hsplit & _).
  - reflexivity.
  - reflexivity.
  - vm_compute. discriminate.
  - vm_compute. discriminate.
  - vm_compute. discriminate.
  - lia.
  - lia.
  - destruct Hsplit as (chip2 & chip3 & Hr2 & _);
      [reflexivity | vm_compute; discriminate |].
    exists chip1, chip2. split; [exact Hr1 | exact Hr2].
Defined.

(** The timer discards the ten pending bytes. *)
Lemma user_reader_timeout_discards_witness :
  data_pending sim_pending_chip = 10 /\
  exists chip',
    user_reader_timeout sim_pending_chip = Some chip' /\
    data_pending chip' = 0.
Proof.
  split; [reflexivity|].
  destruct (user_reader_timeout_discards sim_pending_chip)
    as (chip' & Hfire & Hpend & _).
  - reflexivity.
  - reflexivity.
  - exists chip'. split; [exact Hfire | exact Hpend].
Defined.

(** C9 as stated fails on two counts.  The invariant is not preserved
    by a write when the vendor's [recv] returns more than the capacity
    it was given: [tpm_transmit] hands that result on and [tpm_write]
    stores it as the pending size, here 5000 for a buffer of 2048 bytes.
    And an open does not set the cursor to zero: a session opened after
    one that was closed with four bytes read starts with the cursor at
    4. *)
Lemma handoff_invariant_needs_recv_bound :
  (exists w' chip',
     session_run (K := i386_config) 1
       (sim_world, set_registration (new_chip 1 sim_overlong) 0 0)
       [OpOpen (Some (repeat x00 (Z.to_nat TPM_BUFSIZE)));
        OpWrite pcrread 14] = Some (w', chip') /\
     data_position chip' = 0 /\ data_pending chip' = 5000 /\
     ~ handoff_invariant chip') /\
  (exists w' chip',
     session_run (K := i386_config) 1
       (sim_world, set_registration (new_chip 1 sim_ready) 0 0)
       sim_reopened = Some (w', chip') /\
     num_opens chip' = 1 /\ data_pending chip' = 0 /\
     data_position chip' = 4).
Proof.
  split.
  - eexists. eexists. split; [lazy; reflexivity|].
    split; [reflexivity|]. split; [reflexivity|].
    unfold handoff_invariant, TPM_BUFSIZE. cbn. lia.
  - eexists. eexists. split; [lazy; reflexivity|].
    repeat split.
Qed.

(** The invariant at the end of a session on the simulated transport. *)
Lemma handoff_invariant_holds_witness :
  exists w' chip',
    session_run (K := i386_config) 1
      (sim_world, set_registration (new_chip 1 sim_ready) 0 0)
      sim_session = Some (w', chip') /\
    handoff_invariant chip'.
Proof.
  eexists. eexists. split; [lazy; reflexivity|].
  refine (proj1 (handoff_invariant_holds (K := i386_config) 1 1%nat
                   sim_ready 0 0 sim_session sim_world _ _
                   (sim_vendor_recv_bounded _ _ _) _ _)).
  - repeat (constructor; [cbn; try exact I; try lia|]). constructor.
  - lazy. reflexivity.
Defined.

(** C10 as stated ([-ENOSPC] only for a result buffer that is too small)
    fails: with a null result buffer, on a chip whose transport fails the
    send with [-ENOSPC], [tpm_pcr_read] returns that [-ENOSPC], and it is
    the error of the transaction, not a decoded status code. *)
Lemma tpm_pcr_read_enospc_with_null_buffer :
  option_map snd
    (tpm_pcr_read (K := i386_config) 0 sim_world sim_driver_send_fails
       0 0 None 0 (repeat x00 30)) = Some (- ENOSPC) /\
  option_map (fun r => calls (fst (fst (fst r))))
    (tpm_pcr_read (K := i386_config) 0 sim_world sim_driver_send_fails
       0 0 None 0 (repeat x00 30)) = Some [CallSend].
Proof. vm_compute. split; reflexivity. Qed.

(** A ten-byte result buffer is turned away before anything is done. *)
Lemma tpm_pcr_read_size_check_witness :
  tpm_pcr_read (K := i386_config) 0 sim_world sim_driver_send_fails 0 0
    (Some (repeat x00 10)) 10 (repeat x00 30)
  = Some (sim_world, sim_driver_send_fails, Some (repeat x00 10), - ENOSPC).
Proof.
  exact (proj1 (proj2
           (tpm_pcr_read_size_check (K := i386_config) 0 sim_world
              sim_driver_send_fails 0 0 (Some (repeat x00 10)) 10
              (repeat x00 30) eq_refl))
         eq_refl eq_refl).
Defined.

(** * Worked examples for the rest of the driver *)

Lemma registry_numbers_in_range_witness :
  Forall (fun c => 0 <= dev_num c <= 87)
    (tpm_chip_list (registry_run (K := i386_config) sim_history driver_init))
  /\ length (tpm_chip_list
               (registry_run (K := i386_config) sim_history driver_init))
     = 2%nat.
Proof.
  split; [|reflexivity]. apply Forall_forall.
  exact (proj1 (registry_numbers_in_range (K := i386_config) sim_history)).
Defined.

Lemma register_then_lookup_witness :
  exists chip,
    tpm_chip_list sim_driver_one = [chip] /\
    dev_num chip = 0 /\
    tpm_chip_lookup (K := i386_config) sim_driver_one 0 = Some chip /\
    tpm_chip_lookup (K := i386_config) sim_driver_one 65535 = Some chip.
Proof.
  destruct (register_then_lookup (K := i386_config) driver_init 0 sim_ready
              (Some 0) sim_driver_one eq_refl)
    as (chip & Hlist & _ & _ & _ & _ & Hnum & Hany & _).
  exists chip. split; [exact Hlist|].
  assert (Hzero : dev_num chip = 0).
  { vm_compute in Hlist. injection Hlist as <-. reflexivity. }
  rewrite Hzero in Hnum. auto.
Defined.

Lemma tpm_chip_lookup_spec_witness :
  tpm_chip_lookup (K := i386_config) sim_driver_one 5 = None.
Proof.
  apply (proj2 (proj1 (tpm_chip_lookup_spec (K := i386_config)
                         sim_driver_one 5))).
  right. split; [discriminate|].
  intros c [<- | []]. discriminate.
Defined.

Lemma register_undo_clears_word_witness :
  dev_mask
    (fst (tpm_register_hardware_nopci (K := i386_config) sim_driver_one 1
            sim_ready true None))
  = repeat 0 32.
Proof.
  rewrite (register_undo_clears_word (K := i386_config) sim_driver_one 1
             sim_ready 0 1 eq_refl eq_refl).
  reflexivity.
Defined.

Lemma tpm_remove_hardware_effect_witness :
  tpm_chip_list (tpm_remove_hardware sim_driver_one 0) = [] /\
  tpm_remove_hardware (tpm_remove_hardware sim_driver_one 0) 0
    = tpm_remove_hardware sim_driver_one 0.
Proof.
  destruct (tpm_remove_hardware_effect sim_driver_one 0)
    as (Hremove & _ & Hidem).
  split; [|exact Hidem].
  destruct (tpm_chip_list sim_driver_one) as [|chip l] eqn:El;
    [discriminate El|].
  rewrite (Hremove 1%nat chip); [| reflexivity | | ].
  - vm_compute in El. injection El as <- <-. reflexivity.
  - vm_compute in El. injection El as <- <-. reflexivity.
  - vm_compute in El. injection El as <- <-. vm_compute. discriminate.
Defined.

Lemma sim_driver_one_ok : registry_ok sim_driver_one.
Proof.
  apply (register_keeps_registry_ok (K := i386_config)).
  apply driver_init_ok.
Qed.

Lemma register_then_remove_witness :
  let d' :=
    fst (tpm_register_hardware_nopci (K := i386_config) sim_driver_one 7
           sim_ready true (Some 60)) in
  length (tpm_chip_list d') = 2%nat /\
  tpm_chip_list (tpm_remove_hardware d' 7) = tpm_chip_list sim_driver_one.
Proof.
  split; [reflexivity|].
  exact (proj1 (register_then_remove (K := i386_config) sim_driver_one 7
                  sim_ready (Some 60) _ sim_driver_one_ok eq_refl)).
Defined.

Lemma tpm_transmit_call_pattern_witness :
  exists w' chip' buf' rc,
    tpm_transmit (K := i386_config) 1 sim_world (sim_chip sim_ready)
      pcrread 30 = Some (w', chip', buf', rc) /\
    calls w' = [CallRecv; CallStatus; CallSend].
Proof.
  destruct (tpm_transmit (K := i386_config) 1 sim_world (sim_chip sim_ready)
              pcrread 30) as [[[[w' chip'] buf'] rc]|] eqn:Hrun;
    [|vm_compute in Hrun; discriminate Hrun].
  pose proof (tpm_transmit_call_pattern (K := i386_config) _ _ _ _ _ _ _ _ _
                Hrun) as Hpat.
  exists w', chip', buf', rc. split; [reflexivity|].
  destruct Hpat as [(-> & _) | (_ & _ & Hsent)].
  - vm_compute in Hrun. discriminate Hrun.
  - vm_compute in Hrun. injection Hrun as <- _ _ _. reflexivity.
Defined.

Lemma sim_countdown_pending (delay : nat) (final : Z) (resp : list byte) :
  forall (m h : nat), (m <= h)%nat ->
    polls_pending (sim_countdown delay final resp) m h.
Proof.
  induction m as [|m IH]; intros h Hh k Hk; [lia|].
  destruct k as [|k].
  - cbn [status_hw]. destruct h as [|h]; [lia|].
    vm_compute. split; discriminate.
  - cbn [status_hw]. destruct h as [|h]; [lia|].
    apply (IH h); lia.
Qed.

(** A response that is ready at the fourth poll. *)
Lemma tpm_transmit_completes_witness :
  exists w',
    tpm_transmit (K := i386_config) 4 sim_countdown_world
      (sim_countdown_chip 3 1) pcrread 30
    = Some (w', set_tpm_mutex (set_data_position (sim_countdown_chip 3 1) 0)
                  false,
            memcpy_at pcrread 0 sim_response, 10) /\
    calls w' = [CallRecv; CallStatus; CallStatus; CallStatus; CallStatus;
                CallSend].
Proof.
  destruct (tpm_transmit_completes (K := i386_config)
              (KOk := i386_config_ok) sim_countdown_world
              (sim_countdown_chip 3 1) pcrread 30 3)
    with (fuel := 4%nat) as (w' & Hrun & _ & Hcalls & _).
  - vm_compute. discriminate.
  - vm_compute. discriminate.
  - reflexivity.
  - vm_compute. discriminate.
  - apply sim_countdown_pending. apply le_n.
  - reflexivity.
  - vm_compute. reflexivity.
  - apply le_n.
  - exists w'. split; [exact Hrun | exact Hcalls].
Defined.

(** An operation that is cancelled at the third poll. *)
Lemma tpm_transmit_canceled_witness :
  exists w',
    tpm_transmit (K := i386_config) 3 sim_countdown_world
      (sim_countdown_chip 2 2) pcrread 30
    = Some (w', set_tpm_mutex (sim_countdown_chip 2 2) false, pcrread,
            - ECANCELED) /\
    calls w' = [CallStatus; CallStatus; CallStatus; CallSend].
Proof.
  destruct (tpm_transmit_canceled (K := i386_config)
              (KOk := i386_config_ok) sim_countdown_world
              (sim_countdown_chip 2 2) pcrread 30 2)
    with (fuel := 3%nat) as (w' & Hrun & _ & Hcalls).
  - vm_compute. discriminate.
  - vm_compute. discriminate.
  - reflexivity.
  - vm_compute. discriminate.
  - apply sim_countdown_pending. apply le_n.
  - vm_compute. discriminate.
  - reflexivity.
  - vm_compute. reflexivity.
  - apply le_n.
  - exists w'. split; [exact Hrun | exact Hcalls].
Defined.

Lemma tpm_read_fault_retry_witness :
  option_map (fun r => snd (fst r)) (tpm_read sim_pending_chip 4 false)
    = Some (- EFAULT) /\
  tpm_read (del_singleshot_timer_sync sim_pending_chip) 4 true
    = tpm_read sim_pending_chip 4 true.
Proof.
  destruct (tpm_read_fault_retry sim_pending_chip 4 eq_refl eq_refl)
    as [Hfault Hretry].
  split; [rewrite Hfault; reflexivity | apply Hretry].
Defined.

Lemma tpm_read_error_wedges_witness :
  data_pending sim_error_chip = - ENODATA /\
  option_map (fun r => snd (fst r)) (tpm_read sim_error_chip 100 true)
    = Some (- ENODATA) /\
  tpm_write (K := i386_config) 5 sim_world
    (del_singleshot_timer_sync sim_error_chip) pcrread 14 = None.
Proof.
  destruct (tpm_read_error_wedges (K := i386_config) sim_error_chip 100 true
              eq_refl) as (Hread & _ & Hwrite & _).
  split; [reflexivity|]. split; [rewrite Hread; reflexivity|].
  apply Hwrite.
Defined.

Lemma tpm_write_then_read_all_witness :
  exists chip'',
    tpm_read sim_pending_chip 4096 true
      = Some (chip'', 10, sim_response) /\
    data_pending chip'' = 0.
Proof.
  assert (Hw : exists w',
            tpm_write (K := i386_config) 1 sim_world (sim_chip sim_ready)
              pcrread 14 = Some (w', sim_pending_chip, 14)).
  { eexists. lazy. reflexivity. }
  destruct Hw as [w' Hw].
  destruct (tpm_write_then_read_all (K := i386_config) 1 sim_world
              (sim_chip sim_ready) pcrread 14 w' sim_pending_chip 14
              4096 Hw)
    as (_ & chip'' & Hread & Hdone & _).
  - reflexivity.
  - vm_compute. discriminate.
  - vm_compute. discriminate.
  - vm_compute. discriminate.
  - exists chip''. split; [exact Hread | exact Hdone].
Defined.

Lemma open_release_cycle_witness :
  snd (open_session (new_chip 1 sim_ready) (Some (repeat x00 2048))) = 0 /\
  open_session (sim_chip sim_ready) None = (sim_chip sim_ready, - EBUSY) /\
  snd (open_session (tpm_release (sim_chip sim_ready))
         (Some (repeat x00 2048))) = 0.
Proof.
  destruct (open_release_cycle (new_chip 1 sim_ready) (repeat x00 2048)
              eq_refl) as (Hopen & _ & _ & _ & Hlater & _).
  destruct (Hlater (sim_chip sim_ready) None eq_refl)
    as (Hbusy & _ & _ & _ & _ & Hagain).
  split; [exact Hopen|]. split; [exact Hbusy | apply Hagain].
Defined.

Lemma session_stays_tidy_witness :
  exists w' chip',
    session_run (K := i386_config) 1
      (sim_world, set_registration (new_chip 1 sim_ready) 0 0)
      sim_session = Some (w', chip') /\
    num_opens chip' = 0 /\ data_pending chip' = 0 /\
    user_read_timer chip' = None.
Proof.
  destruct (session_run (K := i386_config) 1
              (sim_world, set_registration (new_chip 1 sim_ready) 0 0)
              sim_session)
    as [[w' chip']|] eqn:Hrun; [|vm_compute in Hrun; discriminate Hrun].
  destruct (session_stays_tidy (K := i386_config) _ _ _ _ _ _ _ _ _ Hrun)
    as (_ & Hclosed & _).
  assert (Hcount : num_opens chip' = 0).
  { vm_compute in Hrun. injection Hrun as _ <-. reflexivity. }
  exists w', chip'. split; [reflexivity|].
  split; [exact Hcount | exact (Hclosed Hcount)].
Defined.

(** A minor that no structure holds; and the registry after the
    structure of the first chip has been registered for a second device:
    the new minor 60 opens the second chip, and no minor opens the
    first, the chip at address 1, any more. *)
Lemma register_then_open_witness :
  tpm_open sim_driver_one 7 None = (sim_driver_one, - ENODEV, None) /\
  snd (fst (tpm_open sim_driver_two 60 (Some (repeat x00 2048)))) = 0 /\
  forall mn' kbuf', snd (tpm_open sim_driver_two mn' kbuf') <> Some 1%nat.
Proof.
  split.
  { apply (proj1 (register_then_open (K := i386_config) sim_driver_one 0
                    sim_ready None sim_driver_one 7 None)).
    intros c [<- | []]. vm_compute. intros E. discriminate E. }
  destruct (proj2 (register_then_open (K := i386_config) sim_driver_one 1
                     sim_ready (Some 60) sim_driver_two 0 None)
              sim_driver_one_ok eq_refl)
    as (chip & m & Hlist & _ & _ & _ & Hm & _ & Hopen & Hold).
  assert (Em : m = 60).
  { assert (Hs : Some 60 = Some m).
    { apply Hm. vm_compute in Hlist. injection Hlist as <-.
      cbn. discriminate. }
    injection Hs as <-. reflexivity. }
  subst m. split.
  - destruct (Hopen (repeat x00 2048)) as [Hrun _]. rewrite Hrun. reflexivity.
  - exact (proj2 (Hold (set_registration (new_chip 1 sim_ready) 0 0)
                    (or_introl eq_refl) eq_refl)).
Defined.

Lemma pcr_commands_layout_witness :
  be32_to_cpu_at (pcr_read_command (repeat x00 30) 258) 10 = 258 /\
  skipn 14 (pcr_extend_command (repeat x00 34) 258 sim_hash) = sim_hash.
Proof.
  destruct (pcr_commands_layout (repeat x00 30) (repeat x00 34) sim_hash 258
              eq_refl eq_refl eq_refl)
    as [(_ & _ & _ & Hidx & _) (_ & _ & _ & _ & Hhash)].
  split; [rewrite Hidx; reflexivity | exact Hhash].
Defined.

Lemma tpm_pcr_extend_result_witness :
  option_map snd
    (tpm_pcr_extend (K := i386_config) 1 sim_world sim_driver_one 0 3
       sim_hash (repeat x00 34)) = Some 0 /\
  tpm_pcr_extend (K := i386_config) 1 sim_world sim_driver_one 9 3
    sim_hash (repeat x00 34) = Some (sim_world, sim_driver_one, - ENODEV).
Proof.
  destruct (tpm_pcr_extend_result (K := i386_config) 1 sim_world
              sim_driver_one 9 3 sim_hash (repeat x00 34) eq_refl eq_refl)
    as [Hnone _].
  split; [vm_compute; reflexivity|]. apply Hnone. reflexivity.
Defined.

(** The caller of [tpm_pcr_read] on the silent chip gets index 258 and
    the zeros of the array back as a digest. *)
Lemma tpm_pcr_read_digest_witness :
  option_map (fun r => (snd (fst r), snd r))
    (tpm_pcr_read (K := i386_config) 1 sim_world sim_driver_silent 0 258
       (Some sim_result_buffer) 20 (repeat x00 30))
  = Some (Some (bytes_of [0; 0; 1; 2] ++ repeat x00 16), 0).
Proof.
  destruct (tpm_chip_list sim_driver_silent) as [|chip l] eqn:El;
    [discriminate El|].
  assert (Hlook : tpm_chip_lookup (K := i386_config) sim_driver_silent
                    (to_int (Z.land 0 TPM_CHIP_NUM_MASK)) = Some chip).
  { unfold tpm_chip_lookup. rewrite El.
    vm_compute in El. injection El as <- <-. reflexivity. }
  destruct (tpm_transmit (K := i386_config) 1 sim_world chip
              (pcr_read_command (repeat x00 30) 258) READ_PCR_RESULT_SIZE)
    as [[[[w' chip'] data] rc0]|] eqn:Htx.
  - destruct (tpm_pcr_read_digest (K := i386_config) 1 sim_world
                sim_driver_silent 0 258 sim_result_buffer 20 (repeat x00 30)
                chip w' chip' data rc0 eq_refl ltac:(vm_compute; discriminate)
                ltac:(apply le_n) Hlook Htx)
      as (res' & rc & Hcall & _ & _ & _ & Hleak).
    assert (Hdata : rc0 = 0 /\ data = pcr_read_command (repeat x00 30) 258).
    { vm_compute in El. injection El as <- <-.
      vm_compute in Htx. injection Htx as _ _ <- <-.
      split; reflexivity. }
    destruct (Hleak (proj1 Hdata) (proj2 Hdata)) as [-> ->].
    rewrite Hcall. reflexivity.
  - exfalso. vm_compute in El. injection El as <- <-.
    vm_compute in Htx. discriminate Htx.
Defined.

(** A write of 14 bytes of which only four can be read, on a session
    buffer filled with [0xff]: the four bytes and ten zero bytes are in
    the buffer afterwards, before the old contents. *)
Lemma tpm_write_fault_witness :
  exists chip',
    tpm_write (K := i386_config) 0 sim_world
      (set_data_buffer (sim_chip sim_ready) (repeat xff 2048))
      (bytes_of [1; 2; 3; 4]) 14 = Some (sim_world, chip', - EFAULT) /\
    firstn 16 (data_buffer chip')
      = bytes_of [1; 2; 3; 4; 0; 0; 0; 0; 0; 0; 0; 0; 0; 0; 255; 255] /\
    data_pending chip' = 0.
Proof.
  eexists. split.
  - apply (tpm_write_fault (K := i386_config) (KOk := i386_config_ok)).
    + reflexivity.
    + reflexivity.
    + reflexivity.
    + vm_compute. split; discriminate.
    + vm_compute. reflexivity.
  - split; reflexivity.
Defined.


Lemma pcr_calls_keep_registry_witness :
  exists w' d' res' rc,
    tpm_pcr_read (K := i386_config) 1 sim_world sim_driver_one 0 0 None 0
      (repeat x00 30) = Some (w', d', res', rc) /\
    dev_mask d' = dev_mask sim_driver_one /\
    Forall2 same_but_cursor (tpm_chip_list sim_driver_one) (tpm_chip_list d').
Proof.
  destruct (tpm_pcr_read (K := i386_config) 1 sim_world sim_driver_one 0 0
              None 0 (repeat x00 30))
    as [[[[w' d'] res'] rc]|] eqn:Hcall;
    [|vm_compute in Hcall; discriminate Hcall].
  destruct (pcr_calls_keep_registry (K := i386_config) 1 sim_world
              sim_driver_one 0 0 None 0 sim_hash (repeat x00 30)
              sim_driver_one_ok) as [Hread _].
  destruct (Hread _ _ _ _ Hcall) as (Hmask & _ & _ & Hchips).
  exists w', d', res', rc. split; [reflexivity|].
  split; [exact Hmask | exact Hchips].
Defined.

